(** * contentjet-api: entry types (models/EntryType.js)

    A shallow embedding of the entry-type model: the definition-time
    constraint tables, [$beforeValidate], the [jsonSchema] document and
    [validateEntryFields], with the properties of the specification that
    concern them. *)

From Stdlib Require Import ZArith QArith Qround String Ascii List Bool Lia DecimalString.
From stdpp Require Import base option list strings gmap fin_maps.
Import ListNotations.

#[local] Set Warnings "-register-all".

Local Open Scope string_scope.
Local Open Scope list_scope.

(** ** JSON values

    Definitions and entry records reach the model as parsed JSON.  A number
    is a rational (JSON has no NaN and no infinities; a number of the model
    stands for the double that the parser reads), a string is a sequence of
    code units, an object is its list of properties. *)

Inductive value : Type :=
| VUndefined
| VNull
| VBool (b : bool)
| VNum (q : Q)
| VStr (s : string)
| VArr (items : list value)
| VObj (props : list (string * value)).

Definition object : Type := list (string * value).

Definition num (z : Z) : value := VNum (inject_Z z).

(** [o.k] on an object: [undefined] when the property is missing.  (A
    parsed object has every key once.) *)
Fixpoint attr (o : object) (k : string) : value :=
  match o with
  | [] => VUndefined
  | (k', v) :: rest => if String.eqb k k' then v else attr rest k
  end.

Definition isNullish (v : value) : bool :=
  match v with VUndefined | VNull => true | _ => false end.

(** A field read as an object.  Every property that the model reads from a
    field ([name], [fieldType], the attribute names of the tables) is
    [undefined] on a boolean, a number, a string or an array, as on an
    object without properties; reading from [null] or [undefined] is a
    [TypeError] and is checked apart, with [isNullish]. *)
Definition asObject (v : value) : object :=
  match v with VObj ps => ps | _ => [] end.

(** JavaScript truthiness, the test of [if (field.disabled)]. *)
Definition truthy (v : value) : bool :=
  match v with
  | VUndefined | VNull => false
  | VBool b => b
  | VNum q => negb (Qeq_bool q 0)
  | VStr s => negb (String.eqb s "")
  | VArr _ | VObj _ => true
  end.

(** [a === b], also lodash's SameValueZero in the absence of NaN.  Arrays
    and objects compare by reference; two parsed ones are never the same. *)
Definition strictEq (a b : value) : bool :=
  match a, b with
  | VUndefined, VUndefined => true
  | VNull, VNull => true
  | VBool x, VBool y => Bool.eqb x y
  | VNum x, VNum y => Qeq_bool x y
  | VStr x, VStr y => String.eqb x y
  | _, _ => false
  end.

Definition isInteger (q : Q) : bool := Qeq_bool q (inject_Z (Qfloor q)).

(** ** What comes from outside the program *)

(** Modelled from the spec: utils/validate is not under src/.  What the
    program takes from outside.  Of the language: the printing of a number
    ([Number::toString], the shortest decimal digits that read back as the
    same double, in exponent form from 1e21 on and below 1e-6).  Of the
    rules of utils/validate: the conversion of a string to a number (unary
    plus; [None] is NaN), the parsers of the url, email and date rules, and
    the two lookups of the MEDIA and LINK rules, true when every id of the
    list is in the project. *)
Record Env : Type := {
  numberToString : Q -> string;
  stringToNumber : string -> option Q;
  parsesAsUrl : value -> bool;
  parsesAsEmail : value -> bool;
  parsesAsDatetime : value -> bool;
  parsesAsDate : value -> bool;
  mediaExistsInProject : list value -> value -> bool;
  entriesExistInProject : list value -> value -> bool
}.

(** *** String conversion

    [toString] is the conversion behind a template literal and a computed
    property key.  A number prints as the language prints it; an array
    prints its elements with commas between them, [null] and [undefined]
    as nothing; an object prints as every object does that has no
    [toString] of its own. *)

Fixpoint joinWith (sep : string) (parts : list string) : string :=
  match parts with
  | [] => ""
  | [p] => p
  | p :: rest => p ++ sep ++ joinWith sep rest
  end.

Fixpoint toString (env : Env) (v : value) : string :=
  match v with
  | VUndefined => "undefined"
  | VNull => "null"
  | VBool true => "true"
  | VBool false => "false"
  | VNum q => numberToString env q
  | VStr s => s
  | VArr items =>
      joinWith ","
        ((fix each (l : list value) : list string :=
            match l with
            | [] => []
            | x :: r => (if isNullish x then "" else toString env x) :: each r
            end) items)
  | VObj _ => "[object Object]"
  end.

(** ** The validation library

    [validate] is [utils/validate]: the validate.js library with the
    project's own rules added.  A constraint set maps an attribute name to
    the rules of that attribute; a rule is a validator with its options.
    An option that can be left out is a [value], [VUndefined] when it is. *)

(** The two patterns of the COLOR rules: [/^#[0-9a-fA-F]{n}$/]. *)
Inductive regexp : Type :=
| HashHex (n : nat).

Inductive validator : Type :=
| Presence (allowEmpty : option bool)
| Length (is_ minimum maximum : value)
| Numericality (greaterThanOrEqualTo lessThanOrEqualTo : value) (onlyInteger : bool)
| Inclusion (within : list value) (message : option string)
| LessThanAttribute (other : string)
| Boolean
| ArrayLength (is_ minimum maximum : value)
| UniqueArray
| Url
| Email
| Datetime
| Date
| ChoicesUnion (choices : value)
| Format (pattern : regexp) (message : string)
| Media (projectId : value)
| Entries (projectId : value)
| ArrayOfStrings.

(** Modelled from the spec: utils/validate is not under src/.  The result
    of a validation maps a name to "the list of violated constraints"; a
    violation says which constraint, and with which bound. *)
Inductive violation : Type :=
| Blank
| IncorrectLength
| WrongLength (count : Q)
| TooShort (count : Q)
| TooLong (count : Q)
| NotANumber
| NotAnInteger
| NotGreaterThanOrEqualTo (count : Q)
| NotLessThanOrEqualTo (count : Q)
| NotIncluded (message : option string)
| NotLessThan (other : string)
| NotBoolean
| NotAnArray
| ArrayWrongLength (count : Q)
| ArrayTooShort (count : Q)
| ArrayTooLong (count : Q)
| NotUnique
| NotUrl
| NotEmail
| NotDatetime
| NotDate
| NotInChoices
| BadFormat (message : string)
| MediaNotFound
| EntriesNotFound
| NotArrayOfStrings.

Abbreviation constraints := (gmap string (list validator)).
Abbreviation errors := (gmap string (list violation)).

Definition isSpace (c : ascii) : bool :=
  let n := nat_of_ascii c in
  (Nat.leb 9 n && Nat.leb n 13) || Nat.eqb n 32 || Nat.eqb n 160.

(** [/^\s*$/] *)
Definition isBlank (s : string) : bool :=
  forallb isSpace (list_ascii_of_string s).

Definition isDefined (v : value) : bool := negb (isNullish v).

(** Modelled from the spec: utils/validate is not under src/.  What
    [presence] with [allowEmpty: false] takes for empty, as validate.js
    does: nothing, a blank string, an array or an object without
    elements. *)
Definition isEmpty (v : value) : bool :=
  match v with
  | VUndefined | VNull => true
  | VStr s => isBlank s
  | VArr [] => true
  | VObj [] => true
  | _ => false
  end.

Definition isHexDigit (c : ascii) : bool :=
  let n := nat_of_ascii c in
  (Nat.leb 48 n && Nat.leb n 57) || (Nat.leb 65 n && Nat.leb n 70)
  || (Nat.leb 97 n && Nat.leb n 102).

Definition matches (p : regexp) (s : string) : bool :=
  match p, s with
  | HashHex n, String c rest =>
      Ascii.eqb c "#" && Nat.eqb (String.length rest) n
      && forallb isHexDigit (list_ascii_of_string rest)
  | HashHex _, EmptyString => false
  end.

(** lodash's [_.uniq]: the first occurrence of every value is kept. *)
Fixpoint baseUniq (result array : list value) : list value :=
  match array with
  | [] => result
  | v :: rest =>
      if existsb (strictEq v) result then baseUniq result rest
      else baseUniq (result ++ [v]) rest
  end.

Definition uniq (array : list value) : list value := baseUniq [] array.

Definition isString (v : value) : bool :=
  match v with VStr _ => true | _ => false end.

(** Modelled from the spec: utils/validate is not under src/.  The
    options [is] (here [is_]), [minimum] and [maximum] against a length;
    an option takes part when it is a number. *)
Definition lengthChecks (wrong tooShort tooLong : Q -> violation)
    (len : nat) (is_ minimum maximum : value) : list violation :=
  let n := inject_Z (Z.of_nat len) in
  (match is_ with
   | VNum c => if Qeq_bool n c then [] else [wrong c]
   | _ => []
   end)
  ++ (match minimum with
      | VNum c => if Qle_bool c n then [] else [tooShort c]
      | _ => []
      end)
  ++ (match maximum with
      | VNum c => if Qle_bool n c then [] else [tooLong c]
      | _ => []
      end).

Section Validate.

Context (env : Env).

(** Modelled from the spec: utils/validate is not under src/.  The rules
    follow section 4.4 (presence; string length within the bounds;
    numeric, within the bounds, integer-only; boolean; member of the
    choices, array length, entries unique; the two hex patterns; the
    lookups; array of strings) and section 4.1 for [lessThanAttribute]
    (the value strictly less than the other attribute of the same
    object).  As in validate.js, only [presence] objects to a value that
    is [undefined] or [null]: an optional field that is left out breaks
    no rule.  [presence] with [allowEmpty: false] also refuses blank
    strings and empty arrays and objects.  [numericality] takes a string
    through [stringToNumber] and stops at the first of "not a number" and
    "not an integer". *)
Definition runValidator (v : validator) (x : value) (attributes : object)
    : list violation :=
  match v with
  | Presence allowEmpty =>
      let missing :=
        match allowEmpty with
        | Some false => isEmpty x
        | _ => negb (isDefined x)
        end in
      if missing then [Blank] else []
  | _ =>
      if negb (isDefined x) then []
      else
        match v with
        | Presence _ => []
        | Length is_ minimum maximum =>
            match x with
            | VStr s => lengthChecks WrongLength TooShort TooLong
                          (String.length s) is_ minimum maximum
            | VArr l => lengthChecks WrongLength TooShort TooLong
                          (length l) is_ minimum maximum
            | _ => [IncorrectLength]
            end
        | Numericality gte lte onlyInteger =>
            let coerced :=
              match x with
              | VNum q => Some q
              | VStr s => if isBlank s then None else stringToNumber env s
              | _ => None
              end in
            match coerced with
            | None => [NotANumber]
            | Some q =>
                if onlyInteger && negb (isInteger q) then [NotAnInteger]
                else
                  (match gte with
                   | VNum c => if Qle_bool c q then []
                               else [NotGreaterThanOrEqualTo c]
                   | _ => []
                   end)
                  ++ (match lte with
                      | VNum c => if Qle_bool q c then []
                                  else [NotLessThanOrEqualTo c]
                      | _ => []
                      end)
            end
        | Inclusion within message =>
            if existsb (strictEq x) within then [] else [NotIncluded message]
        | LessThanAttribute other =>
            match x, attr attributes other with
            | VNum a, VNum b =>
                if Qle_bool b a then [NotLessThan other] else []
            | _, _ => []
            end
        | Boolean =>
            match x with VBool _ => [] | _ => [NotBoolean] end
        | ArrayLength is_ minimum maximum =>
            match x with
            | VArr l => lengthChecks ArrayWrongLength ArrayTooShort ArrayTooLong
                          (length l) is_ minimum maximum
            | _ => [NotAnArray]
            end
        | UniqueArray =>
            match x with
            | VArr l =>
                if Nat.eqb (length (uniq l)) (length l) then [] else [NotUnique]
            | _ => []
            end
        | Url => if parsesAsUrl env x then [] else [NotUrl]
        | Email => if parsesAsEmail env x then [] else [NotEmail]
        | Datetime => if parsesAsDatetime env x then [] else [NotDatetime]
        | Date => if parsesAsDate env x then [] else [NotDate]
        | ChoicesUnion choices =>
            match x, choices with
            | VArr l, VArr cs =>
                if forallb (fun y => existsb (strictEq y) cs) l then []
                else [NotInChoices]
            | _, _ => [NotInChoices]
            end
        | Format pattern message =>
            match x with
            | VStr s => if matches pattern s then [] else [BadFormat message]
            | _ => [BadFormat message]
            end
        | Media projectId =>
            match x with
            | VArr ids =>
                if mediaExistsInProject env ids projectId then []
                else [MediaNotFound]
            | _ => [MediaNotFound]
            end
        | Entries projectId =>
            match x with
            | VArr ids =>
                if entriesExistInProject env ids projectId then []
                else [EntriesNotFound]
            | _ => [EntriesNotFound]
            end
        | ArrayOfStrings =>
            match x with
            | VArr l => if forallb isString l then [] else [NotArrayOfStrings]
            | _ => [NotArrayOfStrings]
            end
        end
  end.

(** Modelled from the spec: utils/validate is not under src/.  The
    violations of a value under the rules of one attribute, in the order
    of the rules. *)
Definition violationsOf (rules : list validator) (x : value)
    (attributes : object) : list violation :=
  concat (map (fun v => runValidator v x attributes) rules).

(** Modelled from the spec: utils/validate is not under src/.
    [validate.single(value, rules)] gives the violations of one value. *)
Definition validate_single (x : value) (rules : list validator)
    : list violation :=
  violationsOf rules x [].

(** Modelled from the spec: utils/validate is not under src/.  The
    violations of one attribute of an object, [None] when it has none. *)
Definition validateAttribute (attributes : object) (k : string)
    (rules : list validator) : option (list violation) :=
  match violationsOf rules (attr attributes k) attributes with
  | [] => None
  | es => Some es
  end.

(** Modelled from the spec: utils/validate is not under src/.
    [validate(attributes, constraints)] gives the mapping from attribute
    name to the list of violated constraints of that attribute; an
    attribute without violation has no entry, and the empty mapping is
    what the source tests as "no errors". *)
Definition validate (attributes : object) (cs : constraints) : errors :=
  map_imap (validateAttribute attributes) cs.

End Validate.

(** [if (errors)] is false and [_.isEmpty(fieldErrors)] true on the empty
    mapping. *)
Definition noErrors {A} (m : gmap string A) : bool :=
  match map_to_list m with [] => true | _ => false end.

(** ** The definition-time constraint tables *)

Definition entryTypeConstraints : constraints :=
  list_to_map [
    ("name", [Presence (Some false); Length VUndefined (num 4) VUndefined]);
    ("description", [Length VUndefined (num 0) VUndefined]);
    ("metadata", [Length VUndefined (num 0) VUndefined]);
    ("projectId", [Presence None; Numericality VUndefined VUndefined true]);
    ("userId", [Presence None; Numericality VUndefined VUndefined true]);
    ("fields", [Presence (Some true)])
  ].

Definition commonFieldConstraints : constraints :=
  list_to_map [
    ("fieldType", [Presence (Some false)]);
    ("name", [Presence None; Length VUndefined (num 4) (num 64)]);
    ("label", [Presence None; Length VUndefined (num 4) (num 64)]);
    ("description", [Presence (Some true)]);
    ("required", [Boolean; Presence (Some false)]);
    ("disabled", [Boolean; Presence (Some false)])
  ].

Definition textFieldConstraints : constraints :=
  list_to_map [
    ("minLength", [Presence None; Numericality (num 0) (num 999) true;
                   LessThanAttribute "maxLength"]);
    ("maxLength", [Presence None; Numericality (num 1) (num 1000) true]);
    ("format", [Presence None;
                Inclusion [VStr "plaintext"; VStr "uri"; VStr "email"]
                  (Some "invalid")])
  ].

Definition longTextFieldConstraints : constraints :=
  list_to_map [
    ("minLength", [Presence None; Numericality (num 0) (num 29999) true;
                   LessThanAttribute "maxLength"]);
    ("maxLength", [Presence None; Numericality (num 1) (num 50000) true]);
    ("format", [Presence None;
                Inclusion [VStr "plaintext"; VStr "markdown"] (Some "invalid")])
  ].

Definition booleanFieldConstraints : constraints :=
  list_to_map [
    ("labelTrue", [Presence None; Length VUndefined (num 1) (num 32)]);
    ("labelFalse", [Presence None; Length VUndefined (num 1) (num 32)])
  ].

Definition numberFieldConstraints : constraints :=
  list_to_map [
    ("minValue", [Numericality VUndefined VUndefined false;
                  LessThanAttribute "maxValue"]);
    ("maxValue", [Numericality VUndefined VUndefined false]);
    ("format", [Presence None;
                Inclusion [VStr "number"; VStr "integer"] (Some "invalid")])
  ].

Definition dateFieldConstraints : constraints :=
  list_to_map [
    ("format", [Presence None;
                Inclusion [VStr "datetime"; VStr "date"] (Some "invalid")])
  ].

Definition choiceFieldConstraints : constraints :=
  list_to_map [
    ("choices", [Presence None; ArrayLength VUndefined (num 2) (num 128);
                 UniqueArray]);
    ("format", [Presence None;
                Inclusion [VStr "single"; VStr "multiple"] (Some "invalid")])
  ].

Definition colorFieldConstraints : constraints :=
  list_to_map [
    ("format", [Presence None;
                Inclusion [VStr "rgb"; VStr "rgba"] (Some "invalid")])
  ].

Definition mediaFieldConstraints : constraints :=
  list_to_map [
    ("minLength", [Presence None; Numericality (num 0) (num 999) true;
                   LessThanAttribute "maxLength"]);
    ("maxLength", [Presence None; Numericality (num 1) (num 1000) true])
  ].

Definition linkFieldConstraints : constraints :=
  list_to_map [
    ("minLength", [Presence None; Numericality (num 0) (num 999) true;
                   LessThanAttribute "maxLength"]);
    ("maxLength", [Presence None; Numericality (num 1) (num 1000) true])
  ].

Definition listFieldConstraints : constraints :=
  list_to_map [
    ("minLength", [Presence None; Numericality (num 0) (num 999) true;
                   LessThanAttribute "maxLength"]);
    ("maxLength", [Presence None; Numericality (num 1) (num 1000) true])
  ].

(** [Object.assign({}, a, b)]: the properties of [a], then those of [b]
    over them. *)
Definition assign (a b : constraints) : constraints := b ∪ a.

(** The table of the ten kinds, in the order of its keys. *)
Definition fieldTypeConstraints : list (string * constraints) :=
  [ ("TEXT", assign commonFieldConstraints textFieldConstraints);
    ("LONGTEXT", assign commonFieldConstraints longTextFieldConstraints);
    ("BOOLEAN", assign commonFieldConstraints booleanFieldConstraints);
    ("NUMBER", assign commonFieldConstraints numberFieldConstraints);
    ("DATE", assign commonFieldConstraints dateFieldConstraints);
    ("CHOICE", assign commonFieldConstraints choiceFieldConstraints);
    ("COLOR", assign commonFieldConstraints colorFieldConstraints);
    ("MEDIA", assign commonFieldConstraints mediaFieldConstraints);
    ("LINK", assign commonFieldConstraints linkFieldConstraints);
    ("LIST", assign commonFieldConstraints listFieldConstraints) ].

(** [Object.keys(fieldTypeConstraints)] *)
Definition fieldTypes : list string := map fst fieldTypeConstraints.

Fixpoint lookupKind (k : string) (table : list (string * constraints))
    : option constraints :=
  match table with
  | [] => None
  | (k', cs) :: rest => if String.eqb k k' then Some cs else lookupKind k rest
  end.

(** [fieldTypeConstraints[tag]]: the key is the tag as a string; a key that
    the table lacks gives [undefined], under which [validate] has nothing
    to check. *)
Definition constraintsFor (env : Env) (tag : value) : constraints :=
  match lookupKind (toString env tag) fieldTypeConstraints with
  | Some cs => cs
  | None => ∅
  end.

(** ** Assignment to a computed key *)

(** The key [__proto__] is no property of an object made by [{}]: it is
    the accessor of the prototype that every such object inherits. *)
Definition isProtoKey (key : string) : bool := String.eqb key "__proto__".

(** [o[key] = v] on an object [o] made by [{}], for a [v] that is an
    object.  The maps of the model hold the properties that an object has
    of its own, which are what [_.isEmpty] and a lookup by key see.  Under
    every key but [__proto__] the assignment sets the property; under
    [__proto__] it makes [v] the prototype of [o] and gives [o] no
    property. *)
Definition setOwnProperty {A} (key : string) (v : A) (o : gmap string A)
    : gmap string A :=
  if isProtoKey key then o else <[key := v]> o.

(** ** [$beforeValidate] *)

Inductive ValidationError : Type :=
| WithMessage (message : string)
| WithErrors (errs : errors)
| WithFieldErrors (fields : gmap string errors).

Inductive exception : Type :=
| Validation (err : ValidationError)
| TypeError.

Inductive completion (A : Type) : Type :=
| Return (a : A)
| Throw (e : exception).

Arguments Return {A} a.
Arguments Throw {A} e.

Section BeforeValidate.

Context (env : Env).

(** The body of [json.fields.forEach], from the fields that are left and
    the [fieldErrors] so far.  The errors of a field whose name makes the
    key [__proto__] become the prototype of [fieldErrors], which stays
    without a property for them. *)
Fixpoint forEachField (fields : list value) (fieldErrors : gmap string errors)
    : completion (gmap string errors) :=
  match fields with
  | [] => Return fieldErrors
  | fieldv :: rest =>
      let field := asObject fieldv in
      let fieldTypeError :=
        validate_single env (attr field "fieldType")
          [Inclusion (map VStr fieldTypes) None] in
      match fieldTypeError with
      | _ :: _ =>
          Throw (Validation (WithMessage
            ("'" ++ toString env (attr field "fieldType")
                 ++ "' is not a valid field type")))
      | [] =>
          let cs := constraintsFor env (attr field "fieldType") in
          let errs := validate env field cs in
          forEachField rest
            (if noErrors errs then fieldErrors
             else setOwnProperty (toString env (attr field "name")) errs
                    fieldErrors)
      end
  end.

Definition beforeValidate (jsonSchema : value) (json : object)
    : completion value :=
  let errs := validate env json entryTypeConstraints in
  if negb (noErrors errs) then Throw (Validation (WithErrors errs))
  else
    match attr json "fields" with
    | VArr fields =>
        if existsb isNullish fields then Throw TypeError
        else
          let fieldNames := map (fun field => attr (asObject field) "name") fields in
          if negb (Nat.eqb (length fieldNames) (length (uniq fieldNames)))
          then Throw (Validation (WithMessage "Field names must be unique"))
          else
            match forEachField fields ∅ with
            | Throw e => Throw e
            | Return fieldErrors =>
                if negb (noErrors fieldErrors)
                then Throw (Validation (WithFieldErrors fieldErrors))
                else Return jsonSchema
            end
    | _ => Throw TypeError
    end.

End BeforeValidate.

(** ** [validateEntryFields] *)

(** A stored entry type: its fields went through [$beforeValidate] and the
    schema document when it was saved, so each of them is an object. *)
Record EntryType : Type := {
  fields : list object
}.

(** [validate.async] settles once every rule, lookups included, has
    answered: it resolves with the attributes or rejects with the mapping
    from field name to violations. *)
Inductive settled : Type :=
| Resolved (attributes : object)
| Rejected (errs : errors).

Section ValidateEntryFields.

Context (env : Env).

(** The [fieldConstraints] object that the loop body builds for one
    field that is not disabled, its rules in the order they are set. *)
Definition fieldConstraints (field : object) (projectId : value)
    : list validator :=
  let fieldType := attr field "fieldType" in
  let format := attr field "format" in
  (if truthy (attr field "required") then [Presence None] else [])
  ++
  (if strictEq fieldType (VStr "TEXT") then
     if strictEq format (VStr "uri") then [Url]
     else if strictEq format (VStr "email") then [Email]
     else []
   else if strictEq fieldType (VStr "TEXT")
           || strictEq fieldType (VStr "LONGTEXT") then
     [Length VUndefined (attr field "minLength") (attr field "maxLength")]
   else if strictEq fieldType (VStr "DATE") then
     if strictEq format (VStr "datetime") then [Datetime]
     else if strictEq format (VStr "date") then [Date]
     else []
   else if strictEq fieldType (VStr "BOOLEAN") then [Boolean]
   else if strictEq fieldType (VStr "NUMBER") then
     [Numericality (attr field "minValue") (attr field "maxValue")
        (strictEq format (VStr "integer"))]
   else if strictEq fieldType (VStr "CHOICE") then
     ChoicesUnion (attr field "choices")
     :: (if strictEq format (VStr "single") then
           [ArrayLength (num 1) VUndefined VUndefined]
         else if strictEq format (VStr "multiple") then
           [ArrayLength VUndefined (num 1) VUndefined; UniqueArray]
         else [])
   else if strictEq fieldType (VStr "COLOR") then
     if strictEq format (VStr "rgb") then
       [Format (HashHex 6) "invalid rgb hex value (should be formatted #000000)"]
     else if strictEq format (VStr "rgba") then
       [Format (HashHex 8) "invalid rgba hex value (should be formatted #00000000)"]
     else []
   else if strictEq fieldType (VStr "MEDIA") then
     [Media projectId;
      ArrayLength VUndefined (attr field "minLength") (attr field "maxLength")]
   else if strictEq fieldType (VStr "LINK") then
     [Entries projectId;
      ArrayLength VUndefined (attr field "minLength") (attr field "maxLength")]
   else if strictEq fieldType (VStr "LIST") then
     [ArrayOfStrings;
      ArrayLength VUndefined (attr field "minLength") (attr field "maxLength")]
   else []).

(** The loop over [this.fields], from the fields that are left and the
    [constraints] so far.  The rules of a field whose name makes the key
    [__proto__] become the prototype of [constraints], not a property. *)
Fixpoint buildConstraints (fs : list object) (projectId : value)
    (cs : constraints) : constraints :=
  match fs with
  | [] => cs
  | field :: rest =>
      if truthy (attr field "disabled") then buildConstraints rest projectId cs
      else
        buildConstraints rest projectId
          (setOwnProperty (toString env (attr field "name"))
             (fieldConstraints field projectId) cs)
  end.

Definition entryConstraints (this : EntryType) (projectId : value)
    : constraints :=
  buildConstraints (fields this) projectId ∅.

(** Modelled from the spec: utils/validate is not under src/.
    [validate.async] evaluates every rule of every field, waits for all
    of them and gives the mapping from field name to violations; the
    empty mapping is success. *)
Definition validate_async (attributes : object) (cs : constraints)
    : settled :=
  let errs := validate env attributes cs in
  if noErrors errs then Resolved attributes else Rejected errs.

Definition validateEntryFields (this : EntryType) (entry : object)
    (projectId : value) : settled :=
  validate_async entry (entryConstraints this projectId).

End ValidateEntryFields.

(** ** The schema document ([jsonSchema]) *)

Fixpoint setProp (o : object) (k : string) (v : value) : object :=
  match o with
  | [] => [(k, v)]
  | (k', v') :: rest =>
      if String.eqb k k' then (k, v) :: rest else (k', v') :: setProp rest k v
  end.

(** [Object.assign(target, source)] on objects. *)
Definition assignObject (target source : object) : object :=
  fold_left (fun o kv => setProp o (fst kv) (snd kv)) source target.

(** [{type: 'integer', minimum: lo, maximum: hi}] *)
Definition intRange (lo hi : Z) : value :=
  VObj [("type", VStr "integer"); ("minimum", num lo); ("maximum", num hi)].

(** [{type: 'string', enum: [...]}] *)
Definition enum (options : list string) : value :=
  VObj [("type", VStr "string"); ("enum", VArr (map VStr options))].

(** [{type: 'string', pattern: p}] *)
Definition tagPattern (p : string) : value :=
  VObj [("type", VStr "string"); ("pattern", VStr p)].

Definition commonFieldAttributes : object :=
  [ ("name", VObj [("type", VStr "string"); ("minLength", num 4); ("maxLength", num 64)]);
    ("label", VObj [("type", VStr "string"); ("minLength", num 4); ("maxLength", num 64)]);
    ("description", VObj [("type", VStr "string"); ("default", VStr ""); ("maxLength", num 128)]);
    ("required", VObj [("type", VStr "boolean"); ("default", VBool false)]);
    ("disabled", VObj [("type", VStr "boolean"); ("default", VBool false)]) ].

(** One member of [oneOf]. *)
Definition shape (properties : object) (required : list string) : value :=
  VObj [ ("properties", VObj (assignObject properties commonFieldAttributes));
         ("additionalProperties", VBool false);
         ("required", VArr (map VStr required)) ].

Definition textShape : value :=
  shape
    [ ("fieldType", tagPattern "^TEXT$");
      ("minLength", intRange 0 999);
      ("maxLength", intRange 1 1000);
      ("format", enum ["plaintext"; "uri"; "email"]) ]
    [ "fieldType"; "name"; "label"; "description"; "required"; "disabled"; "minLength"; "maxLength"; "format" ].

Definition longtextShape : value :=
  shape
    [ ("fieldType", tagPattern "^LONGTEXT$");
      ("minLength", intRange 0 29999);
      ("maxLength", intRange 1 50000);
      ("format", enum ["plaintext"; "markdown"]) ]
    [ "fieldType"; "name"; "label"; "description"; "required"; "disabled"; "minLength"; "maxLength"; "format" ].

Definition booleanShape : value :=
  shape
    [ ("fieldType", tagPattern "^BOOLEAN$");
      ("labelTrue", VObj [("type", VStr "string"); ("minLength", num 1); ("maxLength", num 32)]);
      ("labelFalse", VObj [("type", VStr "string"); ("minLength", num 1); ("maxLength", num 32)]) ]
    [ "fieldType"; "name"; "label"; "description"; "required"; "disabled"; "labelTrue"; "labelFalse" ].

Definition numberShape : value :=
  shape
    [ ("fieldType", tagPattern "^NUMBER$");
      ("minValue", VObj [("type", VStr "number")]);
      ("maxValue", VObj [("type", VStr "number")]);
      ("format", enum ["number"; "integer"]) ]
    [ "fieldType"; "name"; "label"; "description"; "required"; "disabled"; "minValue"; "maxValue"; "format" ].

Definition dateShape : value :=
  shape
    [ ("fieldType", tagPattern "^DATE$");
      ("format", enum ["datetime"; "date"]) ]
    [ "fieldType"; "name"; "label"; "description"; "required"; "disabled"; "format" ].

Definition choiceShape : value :=
  shape
    [ ("fieldType", tagPattern "^CHOICE$");
      ("choices", VObj [("type", VStr "array"); ("items", VObj [("type", VStr "string")]);
                          ("minLength", num 2); ("maxLength", num 128)]);
      ("format", enum ["single"; "multiple"]) ]
    [ "fieldType"; "name"; "label"; "description"; "required"; "disabled"; "choices"; "format" ].

Definition colorShape : value :=
  shape
    [ ("fieldType", tagPattern "^COLOR$");
      ("format", enum ["rgb"; "rgba"]) ]
    [ "fieldType"; "name"; "label"; "description"; "required"; "disabled"; "format" ].

Definition mediaShape : value :=
  shape
    [ ("fieldType", tagPattern "^MEDIA$");
      ("minLength", intRange 0 999);
      ("maxLength", intRange 1 1000) ]
    [ "fieldType"; "name"; "label"; "description"; "required"; "disabled"; "minLength"; "maxLength" ].

Definition linkShape : value :=
  shape
    [ ("fieldType", tagPattern "^LINK$");
      ("minLength", intRange 0 999);
      ("maxLength", intRange 1 1000) ]
    [ "fieldType"; "name"; "label"; "description"; "required"; "disabled"; "minLength"; "maxLength" ].

Definition listShape : value :=
  shape
    [ ("fieldType", tagPattern "^LIST$");
      ("minLength", intRange 0 999);
      ("maxLength", intRange 1 1000) ]
    [ "fieldType"; "name"; "label"; "description"; "required"; "disabled"; "minLength"; "maxLength" ].

Definition jsonSchema : value :=
  VObj [
    ("type", VStr "object");
    ("additionalProperties", VBool false);
    ("properties", VObj [
       ("id", VObj [("type", VStr "integer")]);
       ("name", VObj [("type", VStr "string"); ("minLength", num 1); ("maxLength", num 64)]);
       ("description", VObj [("type", VStr "string"); ("default", VStr ""); ("maxLength", num 128)]);
       ("metadata", VObj [("type", VStr "string"); ("default", VStr ""); ("maxLength", num 3000)]);
       ("projectId", VObj [("type", VStr "integer")]);
       ("userId", VObj [("type", VStr "integer")]);
       ("fields", VObj [
          ("type", VStr "array");
          ("items", VObj [
             ("type", VStr "object");
             ("oneOf", VArr [ textShape;
                              longtextShape;
                              booleanShape;
                              numberShape;
                              dateShape;
                              choiceShape;
                              colorShape;
                              mediaShape;
                              linkShape;
                              listShape ]) ]) ]);
       ("createdAt", VObj [("type", VStr "string"); ("format", VStr "date-time")]);
       ("modifiedAt", VObj [("type", VStr "string"); ("format", VStr "date-time")]) ]);
    ("required", VArr [VStr "name"; VStr "projectId"; VStr "userId"])
  ].

(** ** Vocabulary of the properties *)

(** [field.name] and [field.fieldType] of an element of [json.fields]. *)
Definition fieldName (field : value) : value := attr (asObject field) "name".
Definition fieldTag (field : value) : value := attr (asObject field) "fieldType".

(** A tag that is there and is none of the ten kinds.  (A tag that is
    missing is not refused by the inclusion rule, which ignores a value
    that is not defined.) *)
Definition unknownTag (tag : value) : bool :=
  isDefined tag && negb (existsb (strictEq tag) (map VStr fieldTypes)).

(** The test of [if (field.disabled) continue], negated, and the key under
    which a field's rules are stored. *)
Definition enabled (field : object) : bool := negb (truthy (attr field "disabled")).
Definition fieldKey (env : Env) (field : object) : string :=
  toString env (attr field "name").

(** No other enabled field of the entry type has the key of [field]: the
    invariant "field names unique" of a stored definition. *)
Definition uniqueKey (env : Env) (this : EntryType) (field : object) : Prop :=
  forall g, In g (fields this) -> enabled g = true ->
            fieldKey env g = fieldKey env field -> g = field.

Definition isLength (v : validator) : bool :=
  match v with Length _ _ _ => true | _ => false end.

(** The part of a ruleset that [if (field.required)] contributes. *)
Definition presenceRule (field : object) : list validator :=
  if truthy (attr field "required") then [Presence None] else [].

Definition allInChoices (xs cs : list value) : bool :=
  forallb (fun y => existsb (strictEq y) cs) xs.

(** The kinds with an ordering between two attributes, with the lower and
    the upper attribute. *)
Definition orderedKinds : list (string * (string * string)) :=
  [ ("TEXT", ("minLength", "maxLength"));
    ("LONGTEXT", ("minLength", "maxLength"));
    ("MEDIA", ("minLength", "maxLength"));
    ("LINK", ("minLength", "maxLength"));
    ("LIST", ("minLength", "maxLength"));
    ("NUMBER", ("minValue", "maxValue")) ].

Fixpoint getPath (v : value) (path : list string) : value :=
  match path with
  | [] => v
  | k :: rest => getPath (attr (asObject v) k) rest
  end.

(** The members of [properties.fields.items.oneOf]. *)
Definition shapes : list value :=
  match getPath jsonSchema ["properties"; "fields"; "items"; "oneOf"] with
  | VArr l => l
  | _ => []
  end.

Definition requiredOf (sh : value) : list value :=
  match attr (asObject sh) "required" with VArr l => l | _ => [] end.

(** A shape of the union for the kind [kind], whose attributes are the keys
    of the constraint set [cs]: the tag is a string that the pattern
    [^kind$] matches, that is the kind itself and nothing around it, no
    other property is allowed, and the declared and the required properties
    are both the attributes of [cs], each once. *)
Definition closedShape (kind : string) (cs : constraints) (sh : value) : Prop :=
  exists (props : object) (req : list string),
    attr (asObject sh) "properties" = VObj props
    /\ attr props "fieldType"
       = VObj [("type", VStr "string");
               ("pattern", VStr ("^" ++ kind ++ "$")%string)]
    /\ attr (asObject sh) "additionalProperties" = VBool false
    /\ attr (asObject sh) "required" = VArr (map VStr req)
    /\ NoDup (map fst props)
    /\ (list_to_set (map fst props) : gset string) = dom cs
    /\ NoDup req
    /\ (list_to_set req : gset string) = dom cs.

(** ** Data of the examples *)

(** An environment in which every lookup succeeds and every string parses.
    No example prints a number; [numberToString] is given for the whole
    numbers, which print as their decimal digits. *)
Definition stubEnv : Env := {|
  numberToString := fun q => NilZero.string_of_int (Z.to_int (Qfloor q));
  stringToNumber := fun _ => None;
  parsesAsUrl := isString;
  parsesAsEmail := isString;
  parsesAsDatetime := isString;
  parsesAsDate := isString;
  mediaExistsInProject := fun _ _ => true;
  entriesExistInProject := fun _ _ => true
|}.

Definition commonAttributes (kind name label : string) (required disabled : bool)
    : object :=
  [ ("fieldType", VStr kind); ("name", VStr name); ("label", VStr label);
    ("description", VStr ""); ("required", VBool required);
    ("disabled", VBool disabled) ].

Definition definitionOf (name : string) (fs : list object) : object :=
  [ ("name", VStr name); ("projectId", num 1); ("userId", num 1);
    ("fields", VArr (map VObj fs)) ].

(** A plain TEXT field of at most five characters. *)
Definition titleField : object :=
  commonAttributes "TEXT" "title" "Title" false false
  ++ [("minLength", num 0); ("maxLength", num 5); ("format", VStr "plaintext")].

(** A LONGTEXT field, for comparison. *)
Definition bodyField : object :=
  commonAttributes "LONGTEXT" "body" "Body" false false
  ++ [("minLength", num 0); ("maxLength", num 5); ("format", VStr "plaintext")].

(** A required TEXT field that is disabled. *)
Definition hiddenField : object :=
  commonAttributes "TEXT" "hidden" "Hidden" true true
  ++ [("minLength", num 0); ("maxLength", num 5); ("format", VStr "plaintext")].

(** A TEXT field whose bounds are in the wrong order. *)
Definition swappedField : object :=
  commonAttributes "TEXT" "swapped" "Swapped" false false
  ++ [("minLength", num 10); ("maxLength", num 5); ("format", VStr "plaintext")].

(** The same bounds under the name [__proto__]. *)
Definition protoField : object :=
  commonAttributes "TEXT" "__proto__" "Proto" false false
  ++ [("minLength", num 10); ("maxLength", num 5); ("format", VStr "plaintext")].

(** A field of a kind that does not exist, under a name that [titleField]
    has too. *)
Definition bogusTitleField : object :=
  commonAttributes "BOGUS" "title" "Title" false false.

Definition bogusField : object :=
  commonAttributes "BOGUS" "other" "Other" false false.

Definition colourChoiceField : object :=
  commonAttributes "CHOICE" "colour" "Colour" false false
  ++ [("choices", VArr [VStr "a"; VStr "b"; VStr "c"]); ("format", VStr "single")].

Definition publishedField : object :=
  commonAttributes "BOOLEAN" "published" "Published" true false
  ++ [("labelTrue", VStr "Yes"); ("labelFalse", VStr "No")].

Definition ratingField : object :=
  commonAttributes "NUMBER" "rating" "Rating" false false
  ++ [("minValue", num 0); ("maxValue", num 5); ("format", VStr "integer")].



(** A NUMBER field without bounds. *)
Definition openNumberField : object :=
  commonAttributes "NUMBER" "score" "Score" false false
  ++ [("format", VStr "number")].

From Stdlib Require Import DecimalNat.

(** ** Data of further examples *)

(** A BOOLEAN field whose label is too short and whose two value labels
    are missing. *)
Definition flagField : object :=
  commonAttributes "BOOLEAN" "flag" "F" false false.

(** Two fields without a name. *)
Definition namelessField : object :=
  [ ("fieldType", VStr "DATE"); ("format", VStr "date") ].

(** ** Reading the two tables side by side *)

(** The values that the [inclusion] rule of a list of rules allows. *)
Fixpoint includedValues (rules : list validator) : option (list value) :=
  match rules with
  | [] => None
  | Inclusion within _ :: _ => Some within
  | _ :: rest => includedValues rest
  end.

(** The bounds of the [numericality] rule of a list of rules that asks for
    an integer. *)
Fixpoint integerBounds (rules : list validator) : option (value * value) :=
  match rules with
  | [] => None
  | Numericality gte lte true :: _ => Some (gte, lte)
  | _ :: rest => integerBounds rest
  end.

(** The bounds of the [length] rule of a list of rules. *)
Fixpoint lengthBounds (rules : list validator) : option (value * value) :=
  match rules with
  | [] => None
  | Length _ minimum maximum :: _ => Some (minimum, maximum)
  | _ :: rest => lengthBounds rest
  end.

(** The [enum] of a property of the schema document. *)
Definition schemaEnum (property : value) : option (list value) :=
  match attr (asObject property) "enum" with
  | VArr l => Some l
  | _ => None
  end.

(** [minimum] and [maximum] of a property of type integer. *)
Definition schemaIntegerRange (property : value) : option (value * value) :=
  if strictEq (attr (asObject property) "type") (VStr "integer")
  then Some (attr (asObject property) "minimum", attr (asObject property) "maximum")
  else None.

(** [minLength] and [maxLength] of a property of type string that has a
    [minLength]. *)
Definition schemaStringLength (property : value) : option (value * value) :=
  if strictEq (attr (asObject property) "type") (VStr "string")
     && isDefined (attr (asObject property) "minLength")
  then Some (attr (asObject property) "minLength",
             attr (asObject property) "maxLength")
  else None.

(** The property [k] of a shape of the union. *)
Definition shapeProperty (sh : value) (k : string) : value :=
  getPath sh ["properties"; k].

(** The rules of the attribute [k] in a constraint set. *)
Definition rulesOf (cs : constraints) (k : string) : list validator :=
  default [] (cs !! k).

(** ** The answer of [existsInProject]

    [existsInProject] asks the database for the number of rows of the
    table with the given id and project, and answers with
    [!!parseInt(result.count)] on the one row that comes back.  What the
    database takes for equal and what it counts is outside the program;
    the model is of the last step, from that row to the answer. *)

(** The value of a digit or letter as a digit of [parseInt]. *)
Definition digitValue (c : ascii) : option Z :=
  let n := Z.of_nat (nat_of_ascii c) in
  if (48 <=? n)%Z && (n <=? 57)%Z then Some (n - 48)%Z
  else if (97 <=? n)%Z && (n <=? 122)%Z then Some (n - 87)%Z
  else if (65 <=? n)%Z && (n <=? 90)%Z then Some (n - 55)%Z
  else None.

(** The longest prefix of digits of the radix, as a number; [acc] is
    [None] until a digit is read. *)
Fixpoint parseDigits (radix : Z) (s : string) (acc : option Z) : option Z :=
  match s with
  | EmptyString => acc
  | String c rest =>
      match digitValue c with
      | Some d =>
          if (d <? radix)%Z
          then parseDigits radix rest (Some (default 0%Z acc * radix + d)%Z)
          else acc
      | None => acc
      end
  end.

Fixpoint skipSpaces (s : string) : string :=
  match s with
  | String c rest => if isSpace c then skipSpaces rest else s
  | EmptyString => s
  end.

Definition isX (c : ascii) : bool := Ascii.eqb c "x" || Ascii.eqb c "X".

(** [parseInt(s)] without a radix: leading white space, a sign, [0x] for
    hexadecimal, then digits; [None] is NaN.  The result is the number
    that the digits say, before it is rounded to a double: the rounding
    does not change whether it is zero. *)
Definition parseInt (s : string) : option Z :=
  let s1 := skipSpaces s in
  let signed :=
    match s1 with
    | String c rest =>
        if Ascii.eqb c "-" then (true, rest)
        else if Ascii.eqb c "+" then (false, rest)
        else (false, s1)
    | EmptyString => (false, s1)
    end in
  let based :=
    match snd signed with
    | String c (String x rest) =>
        if Ascii.eqb c "0" && isX x then (16%Z, rest) else (10%Z, snd signed)
    | _ => (10%Z, snd signed)
    end in
  match parseDigits (fst based) (snd based) None with
  | Some n => Some (if fst signed then (- n)%Z else n)
  | None => None
  end.

(** [!!n] on the result of [parseInt]. *)
Definition toBoolean (n : option Z) : bool :=
  match n with
  | Some z => negb (Z.eqb z 0)
  | None => false
  end.

(** The number that a count is, in the decimal digits in which the
    database driver hands it over. *)
Definition decimalDigits (n : nat) : string :=
  NilZero.string_of_uint (Nat.to_uint n).

(** [result => !!parseInt(result.count)]; [parseInt] takes its argument
    as a string. *)
Definition existsInProject_answer (env : Env) (result : object) : bool :=
  toBoolean (parseInt (toString env (attr result "count"))).

Definition isDecimalDigit (c : ascii) : bool :=
  let n := nat_of_ascii c in Nat.leb 48 n && Nat.leb n 57.

(** ** The script [init-config.js]

    The script draws a uuid, writes the production configuration with the
    uuid as its secret key, and leaves a configuration that is there
    alone.  The file system is the map from the paths of its files to
    their contents, with the paths at which it lets a file be created;
    [uuid.v4()] is an argument. *)

Definition newline : string := String (ascii_of_nat 10) EmptyString.

(** [.replace(/-/g, '')] *)
Fixpoint removeDashes (s : string) : string :=
  match s with
  | EmptyString => EmptyString
  | String c rest =>
      if Ascii.eqb c "-" then removeDashes rest else String c (removeDashes rest)
  end.

(** The template of [data] up to the hole of [secretKey], without the
    line break that opens it. *)
Definition templateHead : string :=
  joinWith newline
    [ "module.exports = {";
      "  // Secret key used for hashing passwords and generating tokens";
      "  SECRET_KEY: '" ].

(** The template from the hole on, without the line break that closes
    it. *)
Definition templateTail : string :=
  joinWith newline
    [ "',";
      "  // Database connection options. See http://knexjs.org/#Installation-client";
      "  DATABASE: {";
      "    client: 'postgresql', // Do not change. Only postgres is supported.";
      "    connection: {";
      "      host: 'localhost',";
      "      database: 'contentjet-api',";
      "      user: 'postgres',";
      "      password: 'password'";
      "    },";
      "    pool: {";
      "      min: 2,";
      "      max: 10";
      "    },";
      "    migrations: {";
      "      tableName: 'knex_migrations'";
      "    }";
      "  },";
      "  // The url where contentjet-ui is hosted";
      "  FRONTEND_URL: 'https://example.com',";
      "  // Email sending service";
      "  MAIL_BACKEND: './backends/mail/MailGunBackend',";
      "  MAIL_BACKEND_CONFIG: {";
      "    mailGun: {";
      "      auth: {";
      "        api_key: '',";
      "        domain: ''";
      "      }";
      "    }";
      "  },";
      "  // Email address used in the 'from' field of all email sent by this app";
      "  MAIL_FROM: 'noreply@example.com',";
      "  // The URL uploaded media is served from";
      "  MEDIA_URL: 'https://media.example.com',";
      "};" ].

Definition template (secretKey : string) : string :=
  newline ++ templateHead ++ secretKey ++ templateTail ++ newline.

Fixpoint trimEnd (s : string) : string :=
  match s with
  | EmptyString => EmptyString
  | String c rest =>
      match trimEnd rest with
      | EmptyString => if isSpace c then EmptyString else String c EmptyString
      | kept => String c kept
      end
  end.

(** [String.prototype.trim] *)
Definition trim (s : string) : string := trimEnd (skipSpaces s).

(** [fs.writeFileSync(path, data, {flag: 'wx'})]: the file is created
    with the data.  The write fails ([None]) when the path exists, and
    when the file system does not let the file be created there, its
    directory missing or closed to the script ([creatable] is false). *)
Definition writeFileSync_wx (creatable : string -> bool)
    (files : gmap string string) (path data : string)
    : option (gmap string string) :=
  match files !! path with
  | Some _ => None
  | None => if creatable path then Some (<[path := data]> files) else None
  end.

Definition productionConfigPath (dirname : string) : string :=
  dirname ++ "/../config/config.production.js".

(** The script: the files it leaves, and whether it left through
    [process.exit()], which it does on every failure of the write. *)
Definition initConfig (creatable : string -> bool) (dirname uuid : string)
    (files : gmap string string) : gmap string string * bool :=
  let secretKey := removeDashes uuid in
  let data := template secretKey in
  match writeFileSync_wx creatable files (productionConfigPath dirname)
          (trim data) with
  | Some files' => (files', false)
  | None => (files, true)
  end.

(** [n] hexadecimal digits at the head of a string, and what follows. *)
Fixpoint dropHex (n : nat) (s : string) : option string :=
  match n with
  | O => Some s
  | S n' =>
      match s with
      | String c rest => if isHexDigit c then dropHex n' rest else None
      | EmptyString => None
      end
  end.

(** Groups of hexadecimal digits of the given sizes with a dash between
    one and the next. *)
Fixpoint isGrouped (groups : list nat) (s : string) : bool :=
  match groups with
  | [] => match s with EmptyString => true | _ => false end
  | [n] => match dropHex n s with Some EmptyString => true | _ => false end
  | n :: rest =>
      match dropHex n s with
      | Some (String c r) => Ascii.eqb c "-" && isGrouped rest r
      | _ => false
      end
  end.

(** The text form of a uuid: 8-4-4-4-12 hexadecimal digits. *)
Definition isUuid (s : string) : bool := isGrouped [8; 4; 4; 4; 12]%nat s.

(** ** The view set of the entry tags ([EntryTagViewSet]) *)

(** The options that the constructor hands to [BaseViewSet]: a deep copy
    of the caller's options object with [disabledActions] set. *)
Definition entryTagViewSetOptions (options : object) : object :=
  setProp options "disabledActions"
    (VArr [VStr "create"; VStr "retrieve"; VStr "delete"; VStr "update"]).

(** * Properties *)

Example toString_array (env : Env) :
  toString env (VArr [VStr "TEXT"; VNull; VArr [VStr "a"; VBool true]])
  = "TEXT,,a,true".
Proof. reflexivity. Qed.

(** ** Mappings of violations *)

Lemma noErrors_empty {A} (m : gmap string A) : noErrors m = true <-> m = ∅.
Proof.
  unfold noErrors. rewrite <- (map_to_list_empty_iff m).
  destruct (map_to_list m); split; intros; congruence.
Qed.

Lemma noErrors_false_lookup {A} (m : gmap string A) k :
  is_Some (m !! k) -> noErrors m = false.
Proof.
  intros [x Hx]. destruct (noErrors m) eqn:E; [|reflexivity].
  apply noErrors_empty in E. subst m. rewrite lookup_empty in Hx. discriminate.
Qed.

Lemma validate_lookup env (attributes : object) (cs : constraints) k :
  validate env attributes cs !! k = cs !! k ≫= validateAttribute env attributes k.
Proof. unfold validate. apply map_lookup_imap. Qed.

Lemma validateAttribute_In env attributes k rules x :
  In x (violationsOf env rules (attr attributes k) attributes) ->
  exists es, validateAttribute env attributes k rules = Some es /\ In x es.
Proof.
  unfold validateAttribute. intros H.
  destruct (violationsOf _ _ _ _) as [|e es] eqn:E; [destruct H|].
  exists (e :: es). split; [reflexivity|exact H].
Qed.

Lemma violationsOf_app env r1 r2 x attributes :
  violationsOf env (r1 ++ r2) x attributes
  = violationsOf env r1 x attributes ++ violationsOf env r2 x attributes.
Proof. unfold violationsOf. rewrite map_app, concat_app. reflexivity. Qed.

Lemma Qle_bool_inject (a b : Z) : Qle_bool (inject_Z a) (inject_Z b) = Z.leb a b.
Proof. unfold Qle_bool. cbn [inject_Z Qnum Qden]. rewrite !Z.mul_1_r. reflexivity. Qed.

(** ** [_.uniq] drops a repeated name *)

Lemma baseUniq_length_le result array :
  (length (baseUniq result array) <= length result + length array)%nat.
Proof.
  revert result. induction array as [|v rest IH]; intros result; simpl.
  - lia.
  - destruct (existsb (strictEq v) result).
    + specialize (IH result). lia.
    + specialize (IH (result ++ [v])). rewrite length_app in IH. simpl in IH. lia.
Qed.

Lemma baseUniq_seen_lt result array x :
  In x array -> existsb (strictEq x) result = true ->
  (length (baseUniq result array) < length result + length array)%nat.
Proof.
  revert result. induction array as [|v rest IH]; intros result Hin Hseen; simpl.
  - destruct Hin.
  - destruct (existsb (strictEq v) result) eqn:E.
    + pose proof (baseUniq_length_le result rest). lia.
    + destruct Hin as [->|Hin]; [congruence|].
      specialize (IH (result ++ [v]) Hin).
      rewrite existsb_app, Hseen in IH. specialize (IH eq_refl).
      rewrite length_app in IH. simpl in IH. lia.
Qed.

Lemma baseUniq_repeated_lt result l1 l2 l3 s :
  (length (baseUniq result (l1 ++ VStr s :: l2 ++ VStr s :: l3))
   < length result + length (l1 ++ VStr s :: l2 ++ VStr s :: l3))%nat.
Proof.
  revert result. induction l1 as [|v rest IH]; intros result.
  - cbn [app baseUniq]. destruct (existsb (strictEq (VStr s)) result) eqn:E.
    + pose proof (baseUniq_length_le result (l2 ++ VStr s :: l3)). simpl. lia.
    + pose proof (baseUniq_seen_lt (result ++ [VStr s]) (l2 ++ VStr s :: l3) (VStr s)) as H.
      rewrite existsb_app in H. simpl in H. rewrite String.eqb_refl in H.
      rewrite orb_true_r in H. rewrite length_app in H. simpl in H.
      assert (Hin : In (VStr s) (l2 ++ VStr s :: l3))
        by (apply in_or_app; right; left; reflexivity).
      specialize (H Hin eq_refl). simpl. lia.
  - cbn [app baseUniq]. destruct (existsb (strictEq v) result).
    + specialize (IH result). simpl. lia.
    + specialize (IH (result ++ [v])). rewrite length_app in IH. simpl in IH.
      simpl. lia.
Qed.

Lemma split_two {A} (l : list A) i j x y :
  (i < j)%nat -> l !! i = Some x -> l !! j = Some y ->
  exists l1 l2 l3, l = l1 ++ x :: l2 ++ y :: l3.
Proof.
  intros Hij Hi Hj.
  pose proof (take_drop_middle l i x Hi) as E1.
  assert (Hj' : drop (S i) l !! (j - S i)%nat = Some y).
  { rewrite lookup_drop. replace (S i + (j - S i))%nat with j by lia. exact Hj. }
  pose proof (take_drop_middle _ _ _ Hj') as E2.
  exists (take i l), (take (j - S i) (drop (S i) l)),
         (drop (S (j - S i)) (drop (S i) l)).
  rewrite E2. symmetry. exact E1.
Qed.

Lemma repeated_name_not_unique (fs : list value) i j fi fj s :
  i <> j -> fs !! i = Some fi -> fs !! j = Some fj ->
  fieldName fi = VStr s -> fieldName fj = VStr s ->
  Nat.eqb (length (map fieldName fs)) (length (uniq (map fieldName fs))) = false.
Proof.
  intros Hij Hi Hj Ni Nj.
  assert (exists l1 l2 l3, map fieldName fs = l1 ++ VStr s :: l2 ++ VStr s :: l3)
    as (l1 & l2 & l3 & E).
  { destruct (Nat.lt_total i j) as [H|[H|H]]; [|contradiction|].
    - apply (split_two _ i j); [exact H| |]; rewrite list_lookup_fmap.
      + rewrite Hi. simpl. congruence.
      + rewrite Hj. simpl. congruence.
    - apply (split_two _ j i); [exact H| |]; rewrite list_lookup_fmap.
      + rewrite Hj. simpl. congruence.
      + rewrite Hi. simpl. congruence. }
  apply Nat.eqb_neq. rewrite E. unfold uniq.
  pose proof (baseUniq_repeated_lt [] l1 l2 l3 s) as H. simpl in H. lia.
Qed.

Lemma strictEq_sym a b : strictEq a b = strictEq b a.
Proof.
  destruct a, b; try reflexivity; cbn [strictEq].
  - destruct b, b0; reflexivity.
  - unfold Qeq_bool. apply Z.eqb_sym.
  - apply String.eqb_sym.
Qed.

Lemma baseUniq_full_length result array :
  length (baseUniq result array) = (length result + length array)%nat
  <-> (forall x, In x array -> existsb (strictEq x) result = false)
      /\ (forall l1 x l2 y l3, array = l1 ++ x :: l2 ++ y :: l3 ->
            strictEq x y = false).
Proof.
  revert result. induction array as [|v rest IH]; intros result.
  - cbn [baseUniq length]. split.
    + intros _. split; [intros x []|]. intros [|? ?] ? ? ? ? E; discriminate E.
    + intros _. lia.
  - cbn [baseUniq length]. destruct (existsb (strictEq v) result) eqn:E.
    + split.
      * intros H. pose proof (baseUniq_length_le result rest). lia.
      * intros [H _]. rewrite (H v) in E; [discriminate|left; reflexivity].
    + rewrite <- Nat.add_succ_comm.
      replace (S (length result)) with (length (result ++ [v]))
        by (rewrite length_app; simpl; lia).
      rewrite IH. split.
      * intros [Hseen Hpair]. split.
        -- intros x [<-|Hx]; [exact E|].
           specialize (Hseen x Hx). rewrite existsb_app in Hseen.
           apply orb_false_iff in Hseen as [Hs _]. exact Hs.
        -- intros [|w l1] x l2 y l3 Heq; cbn [app] in Heq; inversion Heq; subst.
           ++ assert (Hy : In y (l2 ++ y :: l3))
                by (apply in_or_app; right; left; reflexivity).
              specialize (Hseen y Hy). rewrite existsb_app in Hseen.
              apply orb_false_iff in Hseen as [_ Hs]. cbn [existsb] in Hs.
              rewrite orb_false_r in Hs. rewrite strictEq_sym. exact Hs.
           ++ exact (Hpair l1 x l2 y l3 eq_refl).
      * intros [Hseen Hpair]. split.
        -- intros x Hx. rewrite existsb_app. apply orb_false_iff. split.
           ++ apply Hseen. right. exact Hx.
           ++ cbn [existsb]. rewrite orb_false_r. rewrite strictEq_sym.
              apply in_split in Hx as (l2 & l3 & ->).
              exact (Hpair [] v l2 x l3 eq_refl).
        -- intros l1 x l2 y l3 ->. exact (Hpair (v :: l1) x l2 y l3 eq_refl).
Qed.

Lemma same_pair_or_none (l : list value) :
  (exists i j x y, i <> j /\ l !! i = Some x /\ l !! j = Some y
                   /\ strictEq x y = true)
  \/ (forall l1 x l2 y l3, l = l1 ++ x :: l2 ++ y :: l3 -> strictEq x y = false).
Proof.
  induction l as [|v rest IH].
  - right. intros [|? ?] ? ? ? ? E; discriminate E.
  - destruct (existsb (strictEq v) rest) eqn:E.
    + left. apply existsb_exists in E as (y & Hy & Hvy).
      apply list_elem_of_In, list_elem_of_lookup in Hy as [k Hk].
      exists 0%nat, (S k), v, y. repeat split; [lia|exact Hk|exact Hvy].
    + destruct IH as [(i & j & x & y & Hij & Hi & Hj & Hxy)|Hall].
      * left. exists (S i), (S j), x, y. repeat split; [lia|exact Hi|exact Hj|exact Hxy].
      * right. intros [|w l1] x l2 y l3 Heq; cbn [app] in Heq; inversion Heq; subst.
        -- destruct (strictEq x y) eqn:Hxy; [|reflexivity].
           assert (existsb (strictEq x) (l2 ++ y :: l3) = true); [|congruence].
           apply existsb_exists. exists y. split; [|exact Hxy].
           apply in_or_app. right. left. reflexivity.
        -- exact (Hall l1 x l2 y l3 eq_refl).
Qed.

(** The check of [fieldNames.length !== _.uniq(fieldNames).length] fails
    exactly when two positions hold names that are the same value. *)
Lemma uniq_check_fails_iff (l : list value) :
  Nat.eqb (length l) (length (uniq l)) = false
  <-> exists i j x y, i <> j /\ l !! i = Some x /\ l !! j = Some y
                      /\ strictEq x y = true.
Proof.
  rewrite Nat.eqb_neq. unfold uniq.
  pose proof (baseUniq_full_length [] l) as H. cbn [length Nat.add] in H.
  split.
  - intros Hne.
    destruct (same_pair_or_none l) as [Hex|Hall]; [exact Hex|].
    exfalso. apply Hne. symmetry. apply H. split; [reflexivity|exact Hall].
  - intros (i & j & x & y & Hij & Hi & Hj & Hxy) Heq.
    symmetry in Heq. apply H in Heq as [_ Hpair].
    destruct (Nat.lt_total i j) as [Hlt|[->|Hlt]]; [|contradiction|].
    + destruct (split_two l i j x y Hlt Hi Hj) as (l1 & l2 & l3 & E).
      rewrite (Hpair _ _ _ _ _ E) in Hxy. discriminate.
    + destruct (split_two l j i y x Hlt Hj Hi) as (l1 & l2 & l3 & E).
      rewrite strictEq_sym in Hxy.
      rewrite (Hpair _ _ _ _ _ E) in Hxy. discriminate.
Qed.

(** The check of [uniqueArray], and of the names, passes exactly when no
    two positions hold the same value. *)
Lemma uniq_check_passes_iff (l : list value) :
  Nat.eqb (length (uniq l)) (length l) = true
  <-> forall i j x y, i <> j -> l !! i = Some x -> l !! j = Some y ->
                      strictEq x y = false.
Proof.
  rewrite Nat.eqb_sym. split.
  - intros H i j x y Hij Hi Hj. destruct (strictEq x y) eqn:E; [|reflexivity].
    assert (Hf : Nat.eqb (length l) (length (uniq l)) = false); [|congruence].
    apply uniq_check_fails_iff. exists i, j, x, y. repeat split; assumption.
  - intros H. destruct (Nat.eqb (length l) (length (uniq l))) eqn:E; [reflexivity|].
    apply uniq_check_fails_iff in E as (i & j & x & y & Hij & Hi & Hj & Hxy).
    rewrite (H i j x y Hij Hi Hj) in Hxy. discriminate.
Qed.

(** ** Assignment to a computed key *)

Lemma isProtoKey_true key : isProtoKey key = true <-> key = "__proto__".
Proof. apply String.eqb_eq. Qed.

Lemma isProtoKey_false key : isProtoKey key = false <-> key <> "__proto__".
Proof. apply String.eqb_neq. Qed.

Lemma setOwnProperty_lookup {A} key (v : A) (o : gmap string A) k :
  setOwnProperty key v o !! k
  = if negb (isProtoKey key) && String.eqb key k then Some v else o !! k.
Proof.
  unfold setOwnProperty. destruct (isProtoKey key); cbn [negb andb]; [reflexivity|].
  destruct (String.eqb_spec key k) as [->|Hne].
  - apply lookup_insert_eq.
  - apply lookup_insert_ne. exact Hne.
Qed.

(** No assignment gives an object the property [__proto__]. *)
Lemma setOwnProperty_proto {A} key (v : A) (o : gmap string A) :
  setOwnProperty key v o !! "__proto__" = o !! "__proto__".
Proof.
  rewrite setOwnProperty_lookup. unfold isProtoKey.
  destruct (String.eqb key "__proto__"); reflexivity.
Qed.

Lemma setOwnProperty_keeps {A} key (v : A) (o : gmap string A) k :
  is_Some (o !! k) -> is_Some (setOwnProperty key v o !! k).
Proof.
  intros H. rewrite setOwnProperty_lookup.
  destruct (negb (isProtoKey key) && String.eqb key k); [eauto|exact H].
Qed.

(** ** The loop of [$beforeValidate] *)

Lemma tag_check env tag :
  validate_single env tag [Inclusion (map VStr fieldTypes) None]
  = if unknownTag tag then [NotIncluded None] else [].
Proof.
  unfold validate_single, violationsOf, unknownTag, runValidator. cbn [map concat].
  destruct (isDefined tag); cbn [negb andb app].
  - destruct (existsb (strictEq tag) (map VStr fieldTypes)); reflexivity.
  - reflexivity.
Qed.


(** The first field with an unknown tag, when there is one. *)
Lemma first_unknown (fs : list value) :
  existsb (fun f => unknownTag (fieldTag f)) fs = true ->
  exists l1 f l2, fs = l1 ++ f :: l2
    /\ existsb (fun g => unknownTag (fieldTag g)) l1 = false
    /\ unknownTag (fieldTag f) = true.
Proof.
  induction fs as [|g rest IH]; intros H; [discriminate|].
  cbn [existsb] in H. destruct (unknownTag (fieldTag g)) eqn:E.
  - exists [], g, rest. repeat split. exact E.
  - cbn [orb] in H. destruct (IH H) as (l1 & f & l2 & -> & H1 & Hf).
    exists (g :: l1), f, l2. repeat split; [|exact Hf].
    cbn [existsb]. rewrite E, H1. reflexivity.
Qed.

(** The loop stops at the first field with an unknown tag, whatever the
    fields before it have left in [fieldErrors]. *)
Lemma forEachField_stops env (l1 : list value) f (l2 : list value) acc :
  existsb (fun g => unknownTag (fieldTag g)) l1 = false ->
  unknownTag (fieldTag f) = true ->
  forEachField env (l1 ++ f :: l2) acc
  = Throw (Validation (WithMessage
      ("'" ++ toString env (fieldTag f) ++ "' is not a valid field type"))).
Proof.
  revert acc. induction l1 as [|g rest IH]; intros acc H1 Hf.
  - cbn [app forEachField]. rewrite tag_check. fold (fieldTag f). rewrite Hf.
    reflexivity.
  - cbn [existsb] in H1. apply orb_false_iff in H1 as [Hg Hrest].
    cbn [app forEachField]. rewrite tag_check. fold (fieldTag g). rewrite Hg.
    apply IH; assumption.
Qed.

Lemma forEachField_unknown env (fs : list value) acc :
  existsb (fun f => unknownTag (fieldTag f)) fs = true ->
  exists f, In f fs /\ unknownTag (fieldTag f) = true /\
    forEachField env fs acc
    = Throw (Validation (WithMessage
        ("'" ++ toString env (fieldTag f) ++ "' is not a valid field type"))).
Proof.
  intros H. destruct (first_unknown fs H) as (l1 & f & l2 & -> & H1 & Hf).
  exists f. split; [apply in_or_app; right; left; reflexivity|].
  split; [exact Hf|]. apply forEachField_stops; assumption.
Qed.

Lemma forEachField_known env (fs : list value) (acc : gmap string errors) :
  existsb (fun f => unknownTag (fieldTag f)) fs = false ->
  exists m, forEachField env fs acc = Return m
    /\ (forall k, is_Some (acc !! k) -> is_Some (m !! k))
    /\ (forall f, In f fs ->
          noErrors (validate env (asObject f) (constraintsFor env (fieldTag f)))
          = false ->
          toString env (fieldName f) <> "__proto__" ->
          is_Some (m !! toString env (fieldName f))).
Proof.
  revert acc. induction fs as [|f rest IH]; intros acc H.
  - exists acc. split; [reflexivity|]. split; [auto|]. intros f [].
  - cbn [existsb] in H. apply orb_false_iff in H as [Hf Hrest].
    cbn [forEachField]. rewrite tag_check. fold (fieldTag f). rewrite Hf.
    set (errs := validate env (asObject f) (constraintsFor env (fieldTag f))).
    set (acc' := if noErrors errs then acc
                 else setOwnProperty (toString env (attr (asObject f) "name"))
                        errs acc).
    destruct (IH acc' Hrest) as (m & Em & Hacc & Hfs).
    exists m. split; [exact Em|]. split.
    + intros k Hk. apply Hacc. unfold acc'. destruct (noErrors errs); [exact Hk|].
      apply setOwnProperty_keeps. exact Hk.
    + intros g [<-|Hg] Hbad Hkey.
      * apply Hacc. unfold acc'. fold errs in Hbad. rewrite Hbad.
        rewrite setOwnProperty_lookup. fold (fieldName f).
        apply isProtoKey_false in Hkey. rewrite Hkey, String.eqb_refl. cbn. eauto.
      * apply Hfs; assumption.
Qed.

Lemma forEachField_throws env (fs : list value) acc e :
  forEachField env fs acc = Throw e ->
  exists f, In f fs /\ unknownTag (fieldTag f) = true
    /\ e = Validation (WithMessage
             ("'" ++ toString env (fieldTag f) ++ "' is not a valid field type")).
Proof.
  intros H. destruct (existsb (fun f => unknownTag (fieldTag f)) fs) eqn:E.
  - destruct (forEachField_unknown env fs acc E) as (f & Hf & Uf & Ef).
    exists f. split; [exact Hf|]. split; [exact Uf|]. congruence.
  - destruct (forEachField_known env fs acc E) as (m & Em & _). congruence.
Qed.

(** The errors of one field under the constraint set of its tag: what the
    loop adds to [fieldErrors] is such errors, under the name of the field
    and never under [__proto__]. *)
Lemma forEachField_entries env (fs : list value) (acc : gmap string errors) m :
  forEachField env fs acc = Return m ->
  (forall k e, m !! k = Some e ->
     acc !! k = Some e
     \/ k <> "__proto__"
        /\ exists f, In f fs /\ toString env (fieldName f) = k
             /\ e = validate env (asObject f) (constraintsFor env (fieldTag f))
             /\ noErrors e = false)
  /\ (forall f,
        noErrors (validate env (asObject f) (constraintsFor env (fieldTag f)))
        = false ->
        toString env (fieldName f) <> "__proto__" ->
        (forall g, In g fs ->
           toString env (fieldName g) = toString env (fieldName f) -> g = f) ->
        In f fs
        \/ acc !! toString env (fieldName f)
           = Some (validate env (asObject f) (constraintsFor env (fieldTag f))) ->
        m !! toString env (fieldName f)
        = Some (validate env (asObject f) (constraintsFor env (fieldTag f)))).
Proof.
  revert acc. induction fs as [|f rest IH]; intros acc H.
  - cbn [forEachField] in H. inversion H; subst. split.
    + intros k e Hk. left. exact Hk.
    + intros f _ _ _ [[]|Hacc]. exact Hacc.
  - cbn [forEachField] in H. rewrite tag_check in H. fold (fieldTag f) in H.
    destruct (unknownTag (fieldTag f)); [discriminate|].
    fold (fieldName f) in H.
    set (errs := validate env (asObject f) (constraintsFor env (fieldTag f))) in *.
    destruct (IH _ H) as [Hkeys Hfields]. split.
    + intros k e Hk.
      destruct (Hkeys k e Hk) as [Hacc|(Hp & g & Hg & Kg & Eg & Ng)].
      * destruct (noErrors errs) eqn:Hn; [left; exact Hacc|].
        rewrite setOwnProperty_lookup in Hacc.
        destruct (isProtoKey (toString env (fieldName f))) eqn:Hp;
          cbn [negb andb] in Hacc; [left; exact Hacc|].
        destruct (String.eqb_spec (toString env (fieldName f)) k) as [Heq|Hne];
          [|left; exact Hacc].
        inversion Hacc; subst e. right. split.
        -- apply isProtoKey_false in Hp. congruence.
        -- exists f. repeat split; [left; reflexivity|exact Heq|exact Hn].
      * right. split; [exact Hp|].
        exists g. repeat split; [right; exact Hg|exact Kg|exact Eg|exact Ng].
    + intros g Hbad Hkey Huniq Hor. apply Hfields; [exact Hbad|exact Hkey| |].
      * intros h Hh. apply Huniq. right. exact Hh.
      * destruct (decide (toString env (fieldName f) = toString env (fieldName g)))
          as [Hk|Hk].
        -- assert (f = g) as -> by (apply Huniq; [left; reflexivity|exact Hk]).
           right. fold errs in Hbad. rewrite Hbad. fold errs.
           rewrite setOwnProperty_lookup.
           apply isProtoKey_false in Hkey. rewrite Hkey, String.eqb_refl.
           reflexivity.
        -- destruct Hor as [[->|Hin]|Hacc]; [contradiction|left; exact Hin|].
           right. destruct (noErrors errs); [exact Hacc|].
           rewrite setOwnProperty_lookup.
           apply String.eqb_neq in Hk. rewrite Hk, andb_false_r. exact Hacc.
Qed.

(** The loop ends with [fieldErrors] as empty as it began exactly when no
    tag is unknown and every field either has no violation or has a name
    that makes the key [__proto__]. *)
Lemma forEachField_clean env (fs : list value) :
  forEachField env fs ∅ = Return ∅
  <-> existsb (fun f => unknownTag (fieldTag f)) fs = false
      /\ forallb (fun f =>
                    noErrors (validate env (asObject f)
                                (constraintsFor env (fieldTag f)))
                    || isProtoKey (toString env (fieldName f))) fs
         = true.
Proof.
  split.
  - intros H.
    assert (Hk : existsb (fun f => unknownTag (fieldTag f)) fs = false).
    { destruct (existsb _ fs) eqn:E; [|reflexivity].
      destruct (forEachField_unknown env fs ∅ E) as (f & _ & _ & Ef). congruence. }
    split; [exact Hk|].
    apply forallb_forall. intros f Hf.
    destruct (noErrors _) eqn:Hn; [reflexivity|]. cbn [orb].
    destruct (isProtoKey _) eqn:Hp; [reflexivity|].
    destruct (forEachField_known env fs ∅ Hk) as (m & Em & _ & Hm).
    rewrite H in Em. inversion Em; subst m.
    apply isProtoKey_false in Hp.
    destruct (Hm f Hf Hn Hp) as [x Hx]. rewrite lookup_empty in Hx. discriminate.
  - intros [Hk Hall].
    destruct (forEachField_known env fs ∅ Hk) as (m & Em & _ & _).
    rewrite Em. f_equal. apply map_eq. intros k. rewrite lookup_empty.
    destruct (m !! k) as [e|] eqn:Hk'; [|reflexivity].
    destruct (forEachField_entries env fs ∅ m Em) as [Hkeys _].
    destruct (Hkeys k e Hk') as [Hacc|(Hp & g & Hg & Kg & Eg & Ng)].
    + rewrite lookup_empty in Hacc. discriminate.
    + rewrite forallb_forall in Hall. specialize (Hall g Hg).
      subst e. rewrite Ng in Hall. cbn [orb] in Hall.
      apply isProtoKey_true in Hall. congruence.
Qed.

(** What [$beforeValidate] throws as field errors is what the loop has
    gathered. *)
Lemma beforeValidate_field_errors env jsonSchema0 json m :
  beforeValidate env jsonSchema0 json = Throw (Validation (WithFieldErrors m)) ->
  exists fs, attr json "fields" = VArr fs
    /\ forEachField env fs ∅ = Return m /\ noErrors m = false.
Proof.
  unfold beforeValidate. intros H.
  destruct (negb (noErrors (validate env json entryTypeConstraints)));
    [discriminate|].
  destruct (attr json "fields") as [| | | | |fs|];
    [discriminate|discriminate|discriminate|discriminate|discriminate|
    |discriminate].
  destruct (existsb isNullish fs); [discriminate|].
  destruct (negb (Nat.eqb _ _)); [discriminate|].
  destruct (forEachField env fs ∅) as [m'|e] eqn:Hloop.
  - destruct (noErrors m') eqn:Hm; cbn [negb] in H; [discriminate|].
    inversion H; subst m'. exists fs. repeat split; [exact Hloop|exact Hm].
  - destruct (forEachField_throws env fs ∅ e Hloop) as (f & _ & _ & ->).
    discriminate.
Qed.

(** The schema that [$beforeValidate] is given is the one it returns. *)
Lemma beforeValidate_returns_schema env jsonSchema0 json :
  match beforeValidate env jsonSchema0 json with
  | Return s => s = jsonSchema0
  | Throw _ => True
  end.
Proof.
  unfold beforeValidate.
  destruct (negb (noErrors (validate env json entryTypeConstraints))); [exact I|].
  destruct (attr json "fields"); try exact I.
  destruct (existsb isNullish items); [exact I|].
  destruct (negb _); [exact I|].
  destruct (forEachField env items ∅) as [m|e]; [|exact I].
  destruct (negb (noErrors m)); [exact I|reflexivity].
Qed.

(** ** The loop of [validateEntryFields] *)

Lemma buildConstraints_filter env (fs : list object) pid (cs : constraints) :
  buildConstraints env fs pid cs
  = buildConstraints env (List.filter enabled fs) pid cs.
Proof.
  revert cs. induction fs as [|f rest IH]; intros cs; [reflexivity|].
  cbn [buildConstraints List.filter]. unfold enabled at 1.
  destruct (truthy (attr f "disabled")) eqn:E; cbn [negb].
  - apply IH.
  - cbn [buildConstraints]. rewrite E. apply IH.
Qed.

(** What the loop leaves under a key: the rules of the last field that is
    not disabled and has that key, and under [__proto__] nothing that was
    not there. *)
Lemma buildConstraints_lookup env (fs : list object) pid (cs : constraints) k :
  buildConstraints env fs pid cs !! k
  = if isProtoKey k then cs !! k
    else match last (List.filter
                       (fun f => enabled f && String.eqb (fieldKey env f) k) fs) with
         | Some f => Some (fieldConstraints f pid)
         | None => cs !! k
         end.
Proof.
  revert cs. induction fs as [|f rest IH]; intros cs.
  - cbn [buildConstraints List.filter last]. destruct (isProtoKey k); reflexivity.
  - cbn [buildConstraints List.filter].
    destruct (truthy (attr f "disabled")) eqn:E.
    + assert (enabled f = false) as -> by (unfold enabled; rewrite E; reflexivity).
      cbn [andb]. apply IH.
    + assert (enabled f = true) as -> by (unfold enabled; rewrite E; reflexivity).
      cbn [andb]. rewrite IH. fold (fieldKey env f).
      rewrite setOwnProperty_lookup.
      destruct (isProtoKey k) eqn:Hp.
      * apply isProtoKey_true in Hp. subst k.
        fold (isProtoKey (fieldKey env f)).
        destruct (isProtoKey (fieldKey env f)); reflexivity.
      * destruct (String.eqb (fieldKey env f) k) eqn:Hk.
        -- apply String.eqb_eq in Hk. subst k. rewrite Hp. cbn [negb andb].
           rewrite last_cons. destruct (last _); reflexivity.
        -- rewrite andb_false_r. reflexivity.
Qed.

Lemma entryConstraints_lookup
    env (this : EntryType) (projectId : value) (k : string) :
  entryConstraints env this projectId !! k
  = if isProtoKey k then None
    else (fun f => fieldConstraints f projectId)
           <$> last (List.filter
                       (fun f => enabled f && String.eqb (fieldKey env f) k)
                       (fields this)).
Proof.
  unfold entryConstraints. rewrite buildConstraints_lookup, lookup_empty.
  destruct (isProtoKey k); [reflexivity|]. destruct (last _); reflexivity.
Qed.

Lemma no_field_with_key env (fs : list object) k :
  (forall g, In g fs -> enabled g = true -> fieldKey env g <> k) ->
  List.filter (fun f => enabled f && String.eqb (fieldKey env f) k) fs = [].
Proof.
  induction fs as [|f rest IH]; intros H; [reflexivity|].
  cbn [List.filter]. destruct (enabled f) eqn:E; cbn [andb].
  - destruct (String.eqb_spec (fieldKey env f) k) as [Hk|Hk].
    + exfalso. exact (H f (or_introl eq_refl) E Hk).
    + apply IH. intros g Hg. apply H. right. exact Hg.
  - apply IH. intros g Hg. apply H. right. exact Hg.
Qed.

Lemma buildConstraints_lookup_None env (fs : list object) pid (cs : constraints) k :
  cs !! k = None ->
  (forall g, In g fs -> enabled g = true -> fieldKey env g <> k) ->
  buildConstraints env fs pid cs !! k = None.
Proof.
  intros Hcs Hne. rewrite buildConstraints_lookup, (no_field_with_key env fs k Hne).
  cbn [last]. destruct (isProtoKey k); exact Hcs.
Qed.

Lemma only_field_with_key env (fs : list object) f :
  In f fs -> enabled f = true ->
  (forall g, In g fs -> enabled g = true -> fieldKey env g = fieldKey env f -> g = f) ->
  last (List.filter (fun g => enabled g && String.eqb (fieldKey env g) (fieldKey env f))
          fs) = Some f.
Proof.
  intros Hin Hen Huniq.
  destruct (last _) as [g|] eqn:Hlast.
  - apply last_Some in Hlast as [l' Hl'].
    assert (Hg : In g (List.filter
                         (fun g => enabled g
                                   && String.eqb (fieldKey env g) (fieldKey env f))
                         fs)).
    { rewrite Hl'. apply in_or_app. right. left. reflexivity. }
    apply filter_In in Hg as [Hg Hc]. apply andb_true_iff in Hc as [He Hk].
    apply String.eqb_eq in Hk. f_equal. apply Huniq; assumption.
  - apply last_None in Hlast.
    assert (Hf : In f (List.filter
                         (fun g => enabled g
                                   && String.eqb (fieldKey env g) (fieldKey env f))
                         fs)).
    { apply filter_In. split; [exact Hin|]. rewrite Hen, String.eqb_refl. reflexivity. }
    rewrite Hlast in Hf. destruct Hf.
Qed.

(** The rules of a field that is not disabled and shares its key with no
    other are stored under the key, unless the key is [__proto__]. *)
Lemma enabled_field_ruleset
    env (this : EntryType) (field : object) (projectId : value) :
  In field (fields this) -> enabled field = true -> uniqueKey env this field ->
  entryConstraints env this projectId !! fieldKey env field
  = if isProtoKey (fieldKey env field) then None
    else Some (fieldConstraints field projectId).
Proof.
  intros Hin Hen Huniq. rewrite entryConstraints_lookup.
  destruct (isProtoKey (fieldKey env field)); [reflexivity|].
  rewrite (only_field_with_key env (fields this) field Hin Hen Huniq). reflexivity.
Qed.

(** Deciding [uniqueKey] on a list of fields that is written out. *)
Ltac unique_key :=
  let g := fresh "g" in
  let Hg := fresh "Hg" in
  let He := fresh "He" in
  let Hk := fresh "Hk" in
  intros g Hg He Hk; cbn [fields In] in Hg;
  repeat (destruct Hg as [Hg|Hg];
          [subst g; first [reflexivity | vm_compute in Hk; discriminate Hk] |]);
  destruct Hg.

(** ** TEXT and LONGTEXT: the length rule *)

(** C1.  The ruleset that [validateEntryFields] builds for a TEXT field that
    is not disabled has no string-length rule, whatever the format: the
    first branch of the chain takes every TEXT field, and the second, which
    sets the rule, is reached by LONGTEXT alone.  That ruleset is what is
    stored under the field's name (under the name [__proto__] nothing is
    stored). *)
Theorem text_field_gets_no_length_rule
    (env : Env) (this : EntryType) (field : object) (projectId : value) :
  In field (fields this) ->
  enabled field = true ->
  uniqueKey env this field ->
  attr field "fieldType" = VStr "TEXT" ->
  exists rules,
    entryConstraints env this projectId !! fieldKey env field
    = (if String.eqb (fieldKey env field) "__proto__" then None else Some rules)
    /\ rules = fieldConstraints field projectId
    /\ existsb isLength rules = false.
Proof.
  intros Hin Hen Huniq Ht.
  exists (fieldConstraints field projectId).
  split; [apply enabled_field_ruleset; assumption|]. split; [reflexivity|].
  unfold fieldConstraints. rewrite Ht.
  cbn [strictEq String.eqb Ascii.eqb Bool.eqb]. rewrite existsb_app.
  destruct (truthy (attr field "required"));
    destruct (strictEq (attr field "format") (VStr "uri"));
    destruct (strictEq (attr field "format") (VStr "email")); reflexivity.
Qed.

(** The rule is there for LONGTEXT. *)
Lemma longtext_field_gets_length_rule (field : object) (projectId : value) :
  attr field "fieldType" = VStr "LONGTEXT" ->
  In (Length VUndefined (attr field "minLength") (attr field "maxLength"))
     (fieldConstraints field projectId).
Proof.
  intros Ht. unfold fieldConstraints. rewrite Ht.
  apply in_or_app. right. simpl. left. reflexivity.
Qed.

(** A title of twelve characters passes a TEXT field of at most five; the
    same text is refused by the LONGTEXT field with the same bounds. *)
Lemma text_field_gets_no_length_rule_witness :
  let this := {| fields := [titleField; bodyField] |} in
  (In titleField (fields this) /\ enabled titleField = true
   /\ uniqueKey stubEnv this titleField /\ attr titleField "fieldType" = VStr "TEXT")
  /\ (exists rules,
        entryConstraints stubEnv this (num 1) !! fieldKey stubEnv titleField
        = Some rules
        /\ rules = fieldConstraints titleField (num 1)
        /\ existsb isLength rules = false)
  /\ entryConstraints stubEnv this (num 1) !! "title" = Some []
  /\ validateEntryFields stubEnv this [("title", VStr "far too long")] (num 1)
     = Resolved [("title", VStr "far too long")]
  /\ validateEntryFields stubEnv this [("body", VStr "far too long")] (num 1)
     = Rejected {[ "body" := [TooLong (inject_Z 5)] ]}.
Proof.
  intros this.
  assert (Hin : In titleField (fields this)) by (left; reflexivity).
  assert (Huniq : uniqueKey stubEnv this titleField) by unique_key.
  split; [repeat split; first [exact Hin | exact Huniq | reflexivity]|].
  split; [exact (text_field_gets_no_length_rule stubEnv this titleField (num 1)
                   Hin eq_refl Huniq eq_refl)|].
  repeat split; vm_compute; reflexivity.
Defined.

(** ** The top-level check of the name *)

(** C2, as amended.  The top-level check accepts the name of a definition
    exactly when it has at least four characters and is not blank; it sets
    no upper bound.  A name that it does not accept makes [$beforeValidate]
    throw the top-level error, with an entry for the name. *)
Theorem top_level_name_accepted_from_four
    (env : Env) (jsonSchema0 : value) (json : object) (s : string) :
  attr json "name" = VStr s ->
  (validate env json entryTypeConstraints !! "name" = None
   <-> (4 <= String.length s)%nat /\ isBlank s = false)
  /\ (~ ((4 <= String.length s)%nat /\ isBlank s = false) ->
      exists errs, beforeValidate env jsonSchema0 json
                   = Throw (Validation (WithErrors errs))
                   /\ is_Some (errs !! "name")).
Proof.
  intros Hn.
  assert (Hiff : validate env json entryTypeConstraints !! "name" = None
                 <-> (4 <= String.length s)%nat /\ isBlank s = false).
  { rewrite validate_lookup.
    replace (entryTypeConstraints !! "name")
      with (Some [Presence (Some false); Length VUndefined (num 4) VUndefined])
      by reflexivity.
    cbn [mbind option_bind]. unfold validateAttribute, violationsOf. rewrite Hn.
    cbn [map concat runValidator isEmpty isDefined isNullish negb app].
    unfold lengthChecks, num. rewrite Qle_bool_inject. cbn [app].
    destruct (isBlank s); cbn [app].
    - split; [discriminate|]. intros [_ H]. discriminate.
    - destruct (Z.leb_spec 4 (Z.of_nat (String.length s))); cbn [app].
      + split; [intros _; split; [lia|reflexivity]|reflexivity].
      + split; [discriminate|]. intros [H' _]. lia. }
  split; [exact Hiff|]. intros Hno.
  exists (validate env json entryTypeConstraints).
  assert (Hsome : is_Some (validate env json entryTypeConstraints !! "name")).
  { destruct (validate env json entryTypeConstraints !! "name") eqn:E; [eauto|].
    exfalso. apply Hno. apply Hiff. reflexivity. }
  split; [|exact Hsome].
  unfold beforeValidate. rewrite (noErrors_false_lookup _ "name" Hsome). reflexivity.
Qed.

Lemma top_level_name_accepted_from_four_witness :
  attr (definitionOf "Post" [titleField]) "name" = VStr "Post"
  /\ (validate stubEnv (definitionOf "Post" [titleField]) entryTypeConstraints
        !! "name" = None
      <-> (4 <= String.length "Post")%nat /\ isBlank "Post" = false).
Proof.
  split; [reflexivity|].
  exact (proj1 (top_level_name_accepted_from_four stubEnv jsonSchema
                  (definitionOf "Post" [titleField]) "Post" eq_refl)).
Defined.

(** C2 as first stated, with the bounds 1 and 64, fails: the name "abc" has
    three characters and every other top-level attribute of the definition
    is valid, yet step 1 throws the top-level error, for the name alone.
    With "abcd" the same definition passes. *)
Lemma top_level_name_of_three_refused :
  attr (definitionOf "abc" [titleField]) "name" = VStr "abc"
  /\ (1 <= String.length "abc" <= 64)%nat
  /\ beforeValidate stubEnv jsonSchema (definitionOf "abc" [titleField])
     = Throw (Validation (WithErrors {[ "name" := [TooShort (inject_Z 4)] ]}))
  /\ beforeValidate stubEnv jsonSchema (definitionOf "abcd" [titleField])
     = Return jsonSchema.
Proof.
  split; [reflexivity|]. split; [simpl; lia|].
  split; vm_compute; reflexivity.
Qed.

(** ** Duplicate names and unknown kinds *)

(** C3.  When the top-level attributes are valid and two fields of the
    definition have the same name, [$beforeValidate] throws "Field names
    must be unique", whatever the kinds of the fields: the check comes
    before the loop over the fields. *)
Theorem duplicate_names_rejected_first
    (env : Env) (jsonSchema0 : value) (json : object) (fs : list value)
    (i j : nat) (fi fj : value) (s : string) :
  noErrors (validate env json entryTypeConstraints) = true ->
  attr json "fields" = VArr fs ->
  existsb isNullish fs = false ->
  i <> j -> fs !! i = Some fi -> fs !! j = Some fj ->
  fieldName fi = VStr s ->
  fieldName fj = VStr s ->
  beforeValidate env jsonSchema0 json
  = Throw (Validation (WithMessage "Field names must be unique")).
Proof.
  intros Htop Hfs Hnn Hij Hi Hj Ni Nj.
  unfold beforeValidate. rewrite Htop, Hfs, Hnn. cbn [negb].
  pose proof (repeated_name_not_unique fs i j fi fj s Hij Hi Hj Ni Nj) as H.
  unfold fieldName in H. rewrite H. reflexivity.
Qed.

(** Two fields named "title", the first of a kind that does not exist and
    the second with its bounds in the wrong order: the error is the one of
    the names. *)
Lemma duplicate_names_rejected_first_witness :
  let json := definitionOf "Post"
                [bogusTitleField; swappedField; titleField] in
  let fs := map VObj [bogusTitleField; swappedField; titleField] in
  (noErrors (validate stubEnv json entryTypeConstraints) = true
   /\ attr json "fields" = VArr fs
   /\ existsb isNullish fs = false
   /\ 0%nat <> 2%nat
   /\ fs !! 0%nat = Some (VObj bogusTitleField)
   /\ fs !! 2%nat = Some (VObj titleField)
   /\ fieldName (VObj bogusTitleField) = VStr "title"
   /\ fieldName (VObj titleField) = VStr "title"
   /\ unknownTag (fieldTag (VObj bogusTitleField)) = true)
  /\ beforeValidate stubEnv jsonSchema json
     = Throw (Validation (WithMessage "Field names must be unique")).
Proof.
  intros json fs.
  assert (Htop : noErrors (validate stubEnv json entryTypeConstraints) = true)
    by (vm_compute; reflexivity).
  assert (Hne : 0%nat <> 2%nat) by lia.
  split; [repeat split; first [exact Htop | exact Hne | reflexivity]|].
  exact (duplicate_names_rejected_first stubEnv jsonSchema json fs 0 2
           (VObj bogusTitleField) (VObj titleField) "title"
           Htop eq_refl eq_refl Hne eq_refl eq_refl eq_refl eq_refl).
Defined.




(** ** Disabled fields *)

(** C5.  A field whose [disabled] is true adds no rule: the constraints
    that [validateEntryFields] compiles are those of the entry type without
    its disabled fields.  With the names of a stored definition unique, no
    entry of the compiled constraints has the name of the field, and no
    submitted record, whatever it holds for that name, gets a violation
    under it, also when the field is required. *)
Theorem disabled_field_adds_no_rule
    (env : Env) (this : EntryType) (field : object) (projectId : value) :
  In field (fields this) ->
  attr field "disabled" = VBool true ->
  entryConstraints env this projectId
  = entryConstraints env {| fields := List.filter enabled (fields this) |} projectId
  /\ ~ In field (List.filter enabled (fields this))
  /\ ((forall g, In g (fields this) -> fieldKey env g = fieldKey env field -> g = field) ->
      entryConstraints env this projectId !! fieldKey env field = None
      /\ forall entry : object,
           match validateEntryFields env this entry projectId with
           | Resolved _ => True
           | Rejected errs => errs !! fieldKey env field = None
           end).
Proof.
  intros Hin Hdis.
  assert (Hoff : enabled field = false) by (unfold enabled; rewrite Hdis; reflexivity).
  split; [|split].
  - unfold entryConstraints. cbn [fields]. apply buildConstraints_filter.
  - intros H. apply filter_In in H as [_ H]. congruence.
  - intros Huniq.
    assert (Hnone : entryConstraints env this projectId !! fieldKey env field = None).
    { unfold entryConstraints. apply buildConstraints_lookup_None.
      - apply lookup_empty.
      - intros g Hg He Hk. apply (Huniq g Hg) in Hk. congruence. }
    split; [exact Hnone|]. intros entry.
    unfold validateEntryFields, validate_async.
    destruct (noErrors _); [exact I|].
    rewrite validate_lookup, Hnone. reflexivity.
Qed.

(** A required TEXT field that is disabled, next to a LONGTEXT field: a
    record without the disabled field is accepted, and so is one that
    holds a number for it. *)
Lemma disabled_field_adds_no_rule_witness :
  let this := {| fields := [hiddenField; bodyField] |} in
  (In hiddenField (fields this)
   /\ attr hiddenField "disabled" = VBool true
   /\ attr hiddenField "required" = VBool true)
  /\ entryConstraints stubEnv this (num 1) !! fieldKey stubEnv hiddenField = None
  /\ validateEntryFields stubEnv this [] (num 1) = Resolved []
  /\ validateEntryFields stubEnv this [("hidden", num 7)] (num 1)
     = Resolved [("hidden", num 7)].
Proof.
  intros this.
  assert (Hin : In hiddenField (fields this)) by (left; reflexivity).
  split; [repeat split; first [exact Hin | reflexivity]|].
  split; [|split; vm_compute; reflexivity].
  refine (proj1 (proj2 (proj2 (disabled_field_adds_no_rule stubEnv this
                                 hiddenField (num 1) Hin eq_refl)) _)).
  intros g Hg Hk. cbn [fields In] in Hg.
  destruct Hg as [Hg|[Hg|[]]]; subst g.
  - reflexivity.
  - vm_compute in Hk. discriminate Hk.
Defined.

(** ** CHOICE *)

Lemma allInChoices_iff (xs cs : list value) :
  allInChoices xs cs = true
  <-> forall x, In x xs -> exists c, In c cs /\ strictEq x c = true.
Proof.
  unfold allInChoices. rewrite forallb_forall. split.
  - intros H x Hx. apply existsb_exists. apply H. exact Hx.
  - intros H x Hx. apply existsb_exists. apply H. exact Hx.
Qed.

(** C6.  The ruleset that [validateEntryFields] builds for a CHOICE field
    that is not disabled, and stores under the field's name (under the
    name [__proto__] nothing is stored), holds the rule that every
    submitted value is one of the field's choices.  With the format
    "single" it is that rule and "array length is 1" (after the presence
    rule of a required field), and a submitted array breaks no rule exactly
    when each of its values is one of the choices and it has one element.
    With the format "multiple" it is that rule, "array length at least 1"
    and "entries unique", and a submitted array breaks no rule exactly when
    each of its values is one of the choices, it has at least one element,
    and no two of its positions hold the same value. *)
Theorem choice_ruleset
    (env : Env) (this : EntryType) (field : object) (projectId : value) :
  In field (fields this) ->
  enabled field = true ->
  uniqueKey env this field ->
  attr field "fieldType" = VStr "CHOICE" ->
  exists rules,
    rules = fieldConstraints field projectId
    /\ entryConstraints env this projectId !! fieldKey env field
       = (if String.eqb (fieldKey env field) "__proto__" then None else Some rules)
    /\ In (ChoicesUnion (attr field "choices")) rules
    /\ (attr field "format" = VStr "single" ->
        rules = presenceRule field
                ++ [ChoicesUnion (attr field "choices");
                    ArrayLength (num 1) VUndefined VUndefined]
        /\ forall xs cs attributes, attr field "choices" = VArr cs ->
             (violationsOf env rules (VArr xs) attributes = []
              <-> (forall x, In x xs -> exists c, In c cs /\ strictEq x c = true)
                  /\ length xs = 1%nat))
    /\ (attr field "format" = VStr "multiple" ->
        rules = presenceRule field
                ++ [ChoicesUnion (attr field "choices");
                    ArrayLength VUndefined (num 1) VUndefined; UniqueArray]
        /\ forall xs cs attributes, attr field "choices" = VArr cs ->
             (violationsOf env rules (VArr xs) attributes = []
              <-> (forall x, In x xs -> exists c, In c cs /\ strictEq x c = true)
                  /\ (1 <= length xs)%nat
                  /\ (forall i j x y, i <> j ->
                        xs !! i = Some x -> xs !! j = Some y ->
                        strictEq x y = false))).
Proof.
  intros Hin Hen Huniq Ht.
  exists (fieldConstraints field projectId).
  split; [reflexivity|].
  split; [apply enabled_field_ruleset; assumption|].
  set (rules := fieldConstraints field projectId).
  assert (Hrules : rules = presenceRule field
            ++ ChoicesUnion (attr field "choices")
               :: (if strictEq (attr field "format") (VStr "single") then
                     [ArrayLength (num 1) VUndefined VUndefined]
                   else if strictEq (attr field "format") (VStr "multiple") then
                     [ArrayLength VUndefined (num 1) VUndefined; UniqueArray]
                   else [])).
  { unfold rules, fieldConstraints, presenceRule. rewrite Ht. reflexivity. }
  assert (Hpres : forall xs attributes,
            violationsOf env (presenceRule field) (VArr xs) attributes = []).
  { intros xs attributes. unfold presenceRule, violationsOf.
    destruct (truthy (attr field "required")); reflexivity. }
  split; [|split].
  - rewrite Hrules. apply in_or_app. right. left. reflexivity.
  - intros Hf. rewrite Hf in Hrules.
    cbn [strictEq String.eqb Ascii.eqb Bool.eqb] in Hrules.
    split; [exact Hrules|]. intros xs cs attributes Hc.
    rewrite <- allInChoices_iff.
    rewrite Hrules, violationsOf_app, Hpres, Hc. cbn [app].
    unfold violationsOf. cbn [map concat runValidator isDefined isNullish negb app].
    fold (allInChoices xs cs). unfold lengthChecks, num. cbn [app].
    destruct (allInChoices xs cs); cbn [app].
    + destruct (Qeq_bool (inject_Z (Z.of_nat (length xs))) (inject_Z 1)) eqn:E.
      * apply Qeq_bool_iff in E. unfold Qeq in E. cbn [inject_Z Qnum Qden] in E.
        split; [intros _; split; [reflexivity|lia]|reflexivity].
      * split; [discriminate|]. intros [_ Hl]. rewrite Hl in E. discriminate.
    + split; [discriminate|]. intros [H _]. discriminate.
  - intros Hf. rewrite Hf in Hrules.
    cbn [strictEq String.eqb Ascii.eqb Bool.eqb] in Hrules.
    split; [exact Hrules|]. intros xs cs attributes Hc.
    rewrite <- allInChoices_iff, <- uniq_check_passes_iff.
    rewrite Hrules, violationsOf_app, Hpres, Hc. cbn [app].
    unfold violationsOf. cbn [map concat runValidator isDefined isNullish negb app].
    fold (allInChoices xs cs). unfold lengthChecks, num. rewrite Qle_bool_inject.
    cbn [app].
    destruct (allInChoices xs cs); cbn [app].
    + destruct (Z.leb_spec 1 (Z.of_nat (length xs))); cbn [app].
      * destruct (Nat.eqb (length (uniq xs)) (length xs)) eqn:U.
        -- split; [intros _; repeat split; [lia]|reflexivity].
        -- split; [discriminate|]. intros (_ & _ & H'). discriminate.
      * split; [discriminate|]. intros (_ & Hl & _). lia.
    + split; [discriminate|]. intros [H _]. discriminate.
Qed.

(** The single choice among "a", "b" and "c": ["a"; "b"] is refused for its
    length, ["a"] is accepted, ["d"] is refused as no choice. *)
Lemma choice_ruleset_witness :
  let this := {| fields := [colourChoiceField] |} in
  (In colourChoiceField (fields this) /\ enabled colourChoiceField = true
   /\ uniqueKey stubEnv this colourChoiceField
   /\ attr colourChoiceField "fieldType" = VStr "CHOICE")
  /\ (exists rules,
        rules = fieldConstraints colourChoiceField (num 1)
        /\ entryConstraints stubEnv this (num 1) !! fieldKey stubEnv colourChoiceField
           = Some rules
        /\ In (ChoicesUnion (attr colourChoiceField "choices")) rules)
  /\ validateEntryFields stubEnv this
       [("colour", VArr [VStr "a"; VStr "b"])] (num 1)
     = Rejected {[ "colour" := [ArrayWrongLength (inject_Z 1)] ]}
  /\ validateEntryFields stubEnv this [("colour", VArr [VStr "a"])] (num 1)
     = Resolved [("colour", VArr [VStr "a"])]
  /\ validateEntryFields stubEnv this [("colour", VArr [VStr "d"])] (num 1)
     = Rejected {[ "colour" := [NotInChoices] ]}.
Proof.
  intros this.
  assert (Hin : In colourChoiceField (fields this)) by (left; reflexivity).
  assert (Huniq : uniqueKey stubEnv this colourChoiceField) by unique_key.
  split; [repeat split; first [exact Hin | exact Huniq | reflexivity]|].
  split; [|repeat split; vm_compute; reflexivity].
  destruct (choice_ruleset stubEnv this colourChoiceField (num 1)
              Hin eq_refl Huniq eq_refl) as (rules & Hr & Hs & Hc & _).
  exists rules. split; [exact Hr|]. split; [exact Hs|exact Hc].
Defined.

(** ** The example of section 8 *)

(** C7.  For a definition with a required BOOLEAN field "published" and an
    optional NUMBER field "rating" from 0 to 5 of format integer, the
    record [{published: true, rating: 3}] is accepted, [{rating: 3}] is
    refused with the presence violation on "published", and
    [{published: true, rating: 5.5}] with the integer violation on
    "rating". *)
Theorem published_rating_example
    (env : Env) (published rating : object) (projectId : value) :
  attr published "fieldType" = VStr "BOOLEAN" ->
  attr published "name" = VStr "published" ->
  attr published "required" = VBool true ->
  attr published "disabled" = VBool false ->
  attr rating "fieldType" = VStr "NUMBER" ->
  attr rating "name" = VStr "rating" ->
  attr rating "required" = VBool false ->
  attr rating "disabled" = VBool false ->
  attr rating "minValue" = num 0 ->
  attr rating "maxValue" = num 5 ->
  attr rating "format" = VStr "integer" ->
  let this := {| fields := [published; rating] |} in
  validateEntryFields env this [("published", VBool true); ("rating", num 3)] projectId
  = Resolved [("published", VBool true); ("rating", num 3)]
  /\ validateEntryFields env this [("rating", num 3)] projectId
     = Rejected {[ "published" := [Blank] ]}
  /\ validateEntryFields env this
       [("published", VBool true); ("rating", VNum (11 # 2))] projectId
     = Rejected {[ "rating" := [NotAnInteger] ]}.
Proof.
  intros P1 P2 P3 P4 R1 R2 R3 R4 R5 R6 R7 this.
  assert (Hcs : entryConstraints env this projectId
                = <["rating" := [Numericality (num 0) (num 5) true]]>
                    (<["published" := [Presence None; Boolean]]> ∅)).
  { unfold entryConstraints, this. cbn [fields buildConstraints].
    rewrite P4, R4. cbn [truthy]. unfold fieldConstraints.
    rewrite P1, P2, P3, R1, R2, R3, R5, R6, R7. reflexivity. }
  unfold validateEntryFields. rewrite Hcs.
  repeat split; vm_compute; reflexivity.
Qed.

Lemma published_rating_example_witness :
  let this := {| fields := [publishedField; ratingField] |} in
  validateEntryFields stubEnv this
    [("published", VBool true); ("rating", num 3)] (num 1)
  = Resolved [("published", VBool true); ("rating", num 3)]
  /\ validateEntryFields stubEnv this [("rating", num 3)] (num 1)
     = Rejected {[ "published" := [Blank] ]}
  /\ validateEntryFields stubEnv this
       [("published", VBool true); ("rating", VNum (11 # 2))] (num 1)
     = Rejected {[ "rating" := [NotAnInteger] ]}.
Proof.
  exact (published_rating_example stubEnv publishedField ratingField (num 1)
           eq_refl eq_refl eq_refl eq_refl eq_refl eq_refl eq_refl eq_refl
           eq_refl eq_refl eq_refl).
Defined.

(** ** The ordering of the bounds *)

Lemma lessThanAttribute_fires env attributes lo hi a b rules :
  attr attributes lo = VNum a -> attr attributes hi = VNum b ->
  ~ (a < b)%Q ->
  In (LessThanAttribute hi) rules ->
  exists es, validateAttribute env attributes lo rules = Some es
             /\ In (NotLessThan hi) es.
Proof.
  intros Ha Hb Hnlt Hin. apply validateAttribute_In. unfold violationsOf.
  apply in_concat. exists [NotLessThan hi]. split; [|left; reflexivity].
  apply in_map_iff. exists (LessThanAttribute hi). split; [|exact Hin].
  rewrite Ha. cbn [runValidator isDefined isNullish negb]. rewrite Hb.
  assert (Qle_bool b a = true) as ->; [|reflexivity].
  apply Qle_bool_iff. apply Qnot_lt_le. exact Hnlt.
Qed.

Lemma ordered_kind_rule kind lo hi :
  In (kind, (lo, hi)) orderedKinds ->
  exists cs rules, lookupKind kind fieldTypeConstraints = Some cs
                   /\ cs !! lo = Some rules /\ In (LessThanAttribute hi) rules.
Proof.
  intros H. cbn [orderedKinds In] in H.
  repeat (destruct H as [H|H]; [inversion H; subst; clear H;
    eexists; eexists; split; [reflexivity|split; [vm_compute; reflexivity|]];
    cbn [In]; auto |]).
  destruct H.
Qed.

Lemma bounded_kind_presence kind lo hi :
  In (kind, (lo, hi)) orderedKinds -> kind <> "NUMBER" ->
  exists cs rlo rhi, lookupKind kind fieldTypeConstraints = Some cs
    /\ cs !! lo = Some rlo /\ In (Presence None) rlo
    /\ cs !! hi = Some rhi /\ In (Presence None) rhi.
Proof.
  intros H Hn. cbn [orderedKinds In] in H.
  repeat (destruct H as [H|H]; [inversion H; subst; clear H;
    first [ exfalso; apply Hn; reflexivity
          | eexists; eexists; eexists; split; [reflexivity|];
            split; [vm_compute; reflexivity|]; split; [cbn [In]; auto|];
            split; [vm_compute; reflexivity|]; cbn [In]; auto ] |]).
  destruct H.
Qed.

(** C8.  For a field of TEXT, LONGTEXT, MEDIA, LINK or LIST (lower
    attribute minLength, upper maxLength) or of NUMBER (minValue,
    maxValue) whose lower attribute is a number that is not strictly less
    than the upper one: the constraint set of the kind has the rule
    [lessThanAttribute] of the upper attribute on the lower one, and the
    validation of the field reports that rule under the lower attribute.
    The fail-fast checks being passed, [$beforeValidate] throws the mapping
    of field errors with an entry under the field's name, unless that name
    makes the key [__proto__]: the mapping never has an entry under that
    key, and when every field with a violation has such a name the
    definition is accepted, with its bounds in the wrong order. *)
Theorem ordering_violation_lost_under_proto
    (env : Env) (jsonSchema0 : value) (json : object) (fs : list value)
    (field : value) (kind lo hi : string) (a b : Q) :
  In (kind, (lo, hi)) orderedKinds ->
  noErrors (validate env json entryTypeConstraints) = true ->
  attr json "fields" = VArr fs ->
  existsb isNullish fs = false ->
  Nat.eqb (length (map fieldName fs)) (length (uniq (map fieldName fs))) = true ->
  existsb (fun f => unknownTag (fieldTag f)) fs = false ->
  In field fs ->
  fieldTag field = VStr kind ->
  attr (asObject field) lo = VNum a ->
  attr (asObject field) hi = VNum b ->
  ~ (a < b)%Q ->
  (exists cs rules, lookupKind kind fieldTypeConstraints = Some cs
                    /\ cs !! lo = Some rules /\ In (LessThanAttribute hi) rules)
  /\ (exists es, validate env (asObject field) (constraintsFor env (fieldTag field)) !! lo
                 = Some es /\ In (NotLessThan hi) es)
  /\ (toString env (fieldName field) <> "__proto__" ->
      exists m, beforeValidate env jsonSchema0 json
                = Throw (Validation (WithFieldErrors m))
                /\ is_Some (m !! toString env (fieldName field)))
  /\ (forall m, beforeValidate env jsonSchema0 json
                = Throw (Validation (WithFieldErrors m)) ->
                m !! "__proto__" = None)
  /\ ((forall g, In g fs ->
         noErrors (validate env (asObject g) (constraintsFor env (fieldTag g)))
         = false ->
         toString env (fieldName g) = "__proto__") ->
      beforeValidate env jsonSchema0 json = Return jsonSchema0).
Proof.
  intros Hk Htop Hfs Hnn Huniq Hknown Hin Htag Ha Hb Hnlt.
  destruct (ordered_kind_rule kind lo hi Hk) as (cs & rules & Hcs & Hlo & Hrule).
  assert (Hes : exists es,
             validate env (asObject field) (constraintsFor env (fieldTag field)) !! lo
             = Some es /\ In (NotLessThan hi) es).
  { rewrite validate_lookup. unfold constraintsFor. rewrite Htag.
    cbn [toString]. rewrite Hcs, Hlo. cbn [mbind option_bind].
    exact (lessThanAttribute_fires env _ lo hi a b rules Ha Hb Hnlt Hrule). }
  assert (Hbv : forall loop,
            forEachField env fs ∅ = loop ->
            beforeValidate env jsonSchema0 json
            = match loop with
              | Throw e => Throw e
              | Return fieldErrors =>
                  if negb (noErrors fieldErrors)
                  then Throw (Validation (WithFieldErrors fieldErrors))
                  else Return jsonSchema0
              end).
  { intros loop <-. unfold beforeValidate. rewrite Htop, Hfs, Hnn. cbn [negb].
    unfold fieldName in Huniq. rewrite Huniq. reflexivity. }
  split; [eauto|]. split; [exact Hes|].
  destruct Hes as (es & Hes & _).
  assert (Hbad : noErrors (validate env (asObject field)
                             (constraintsFor env (fieldTag field))) = false).
  { apply (noErrors_false_lookup _ lo). rewrite Hes. eauto. }
  split; [|split].
  - intros Hkey.
    destruct (forEachField_known env fs ∅ Hknown) as (m & Em & _ & Hm).
    assert (Hentry : is_Some (m !! toString env (fieldName field)))
      by (apply Hm; assumption).
    exists m. split; [|exact Hentry].
    rewrite (Hbv _ Em), (noErrors_false_lookup _ _ Hentry). reflexivity.
  - intros m Hm.
    destruct (beforeValidate_field_errors env jsonSchema0 json m Hm)
      as (fs' & Hfs' & Hloop & _).
    destruct (m !! "__proto__") as [e|] eqn:Hp; [|reflexivity].
    destruct (forEachField_entries env fs' ∅ m Hloop) as [Hkeys _].
    destruct (Hkeys _ _ Hp) as [Hacc|[Hne _]].
    + rewrite lookup_empty in Hacc. discriminate.
    + contradiction.
  - intros Hproto.
    assert (Hclean : forEachField env fs ∅ = Return ∅).
    { apply forEachField_clean. split; [exact Hknown|].
      apply forallb_forall. intros g Hg.
      destruct (noErrors (validate env (asObject g)
                            (constraintsFor env (fieldTag g)))) eqn:Hn;
        [reflexivity|]. cbn [orb].
      apply isProtoKey_true. apply Hproto; assumption. }
    rewrite (Hbv _ Hclean).
    assert (noErrors (∅ : gmap string errors) = true) as ->
      by (apply noErrors_empty; reflexivity).
    reflexivity.
Qed.

(** A valid TEXT field, then a TEXT field named [__proto__] with minLength
    10 and maxLength 5: the validation of the field reports the ordering,
    and the definition is accepted.  Under the name "swapped" the same
    bounds are refused, with the one entry "swapped". *)
Lemma ordering_violation_lost_under_proto_witness :
  let json := definitionOf "Post" [titleField; protoField] in
  let fs := map VObj [titleField; protoField] in
  (In ("TEXT", ("minLength", "maxLength")) orderedKinds
   /\ noErrors (validate stubEnv json entryTypeConstraints) = true
   /\ attr json "fields" = VArr fs
   /\ existsb isNullish fs = false
   /\ Nat.eqb (length (map fieldName fs)) (length (uniq (map fieldName fs))) = true
   /\ existsb (fun f => unknownTag (fieldTag f)) fs = false
   /\ In (VObj protoField) fs
   /\ fieldTag (VObj protoField) = VStr "TEXT"
   /\ attr protoField "minLength" = num 10
   /\ attr protoField "maxLength" = num 5
   /\ ~ (inject_Z 10 < inject_Z 5)%Q)
  /\ (exists es, validate stubEnv protoField (constraintsFor stubEnv (VStr "TEXT"))
                   !! "minLength" = Some es
                 /\ In (NotLessThan "maxLength") es)
  /\ beforeValidate stubEnv jsonSchema json = Return jsonSchema
  /\ beforeValidate stubEnv jsonSchema (definitionOf "Post" [titleField; swappedField])
     = Throw (Validation (WithFieldErrors
         {[ "swapped" := {[ "minLength" := [NotLessThan "maxLength"] ]} ]})).
Proof.
  intros json fs.
  assert (Hk : In ("TEXT", ("minLength", "maxLength")) orderedKinds)
    by (left; reflexivity).
  assert (Htop : noErrors (validate stubEnv json entryTypeConstraints) = true)
    by (vm_compute; reflexivity).
  assert (Hin : In (VObj protoField) fs) by (right; left; reflexivity).
  assert (Hnlt : ~ (inject_Z 10 < inject_Z 5)%Q).
  { rewrite <- Zlt_Qlt. lia. }
  split; [repeat split; first [exact Hk | exact Htop | exact Hin | exact Hnlt
                               | reflexivity]|].
  destruct (ordering_violation_lost_under_proto stubEnv jsonSchema json fs
              (VObj protoField) "TEXT" "minLength" "maxLength"
              (inject_Z 10) (inject_Z 5)
              Hk Htop eq_refl eq_refl eq_refl eq_refl Hin eq_refl eq_refl eq_refl
              Hnlt) as (_ & Hes & _ & _ & Hacc).
  split; [exact Hes|]. split; [|vm_compute; reflexivity].
  apply Hacc. intros g Hg Hbad. cbn [fs map In] in Hg.
  destruct Hg as [<-|[<-|[]]].
  - vm_compute in Hbad. discriminate Hbad.
  - reflexivity.
Defined.

(** ** The schema document *)

(** C9.  The [fields] member of the schema document is a [oneOf] of ten
    shapes, one for each kind of the table and in its order.  The shape of
    a kind takes for [fieldType] a string that matches the pattern
    [^KIND$] (the ten patterns are written out), forbids additional
    properties, and declares, and lists as required, the attributes of the
    kind's constraint set, which are the common attributes and those of the
    kind.  The document is a constant; [$beforeValidate] hands back the
    schema it was given. *)
Theorem schema_fields_union_of_ten_shapes :
  getPath jsonSchema ["properties"; "fields"; "items"; "oneOf"] = VArr shapes
  /\ length shapes = 10%nat
  /\ Forall2 (fun kc sh => closedShape (fst kc) (snd kc) sh)
       fieldTypeConstraints shapes
  /\ map (fun sh => getPath sh ["properties"; "fieldType"]) shapes
     = map (fun pattern => VObj [("type", VStr "string"); ("pattern", VStr pattern)])
         [ "^TEXT$"; "^LONGTEXT$"; "^BOOLEAN$"; "^NUMBER$"; "^DATE$";
           "^CHOICE$"; "^COLOR$"; "^MEDIA$"; "^LINK$"; "^LIST$" ]
  /\ Forall (fun kc => exists specific,
               snd kc = assign commonFieldConstraints specific
               /\ dom (snd kc) = dom commonFieldConstraints ∪ dom specific)
       fieldTypeConstraints
  /\ (forall env jsonSchema0 json,
        match beforeValidate env jsonSchema0 json with
        | Return s => s = jsonSchema0
        | Throw _ => True
        end).
Proof.
  split; [reflexivity|]. split; [reflexivity|]. split; [|split; [|split]].
  - unfold fieldTypeConstraints, shapes.
    cbn [getPath attr asObject jsonSchema String.eqb Ascii.eqb Bool.eqb].
    repeat (apply List.Forall2_cons; [
      cbn [fst snd]; eexists; eexists;
      split; [reflexivity|]; split; [reflexivity|]; split; [reflexivity|];
      split; [reflexivity|]; split; [compute_done|]; split; [compute_done|];
      split; compute_done |]).
    apply List.Forall2_nil.
  - reflexivity.
  - unfold fieldTypeConstraints.
    repeat (apply List.Forall_cons; [
      cbn [snd]; eexists; split; [reflexivity|];
      unfold assign; rewrite dom_union_L; apply (comm_L (∪)) |]).
    apply List.Forall_nil.
  - exact beforeValidate_returns_schema.
Qed.

(** ** NUMBER without bounds *)

(** C10.  A NUMBER field without minValue and without maxValue gets no
    violation for either attribute: their rules are numericality (and the
    ordering), without a presence rule, where the two bounds of TEXT,
    LONGTEXT, MEDIA, LINK and LIST each have one; the NUMBER shape of the
    schema document lists both as required all the same. *)
Theorem number_bounds_may_be_omitted (env : Env) (field : object) :
  attr field "minValue" = VUndefined ->
  attr field "maxValue" = VUndefined ->
  let cs := constraintsFor env (VStr "NUMBER") in
  validate env field cs !! "minValue" = None
  /\ validate env field cs !! "maxValue" = None
  /\ cs !! "minValue"
     = Some [Numericality VUndefined VUndefined false; LessThanAttribute "maxValue"]
  /\ cs !! "maxValue" = Some [Numericality VUndefined VUndefined false]
  /\ (forall kind lo hi, In (kind, (lo, hi)) orderedKinds -> kind <> "NUMBER" ->
        exists cs' rlo rhi, lookupKind kind fieldTypeConstraints = Some cs'
          /\ cs' !! lo = Some rlo /\ In (Presence None) rlo
          /\ cs' !! hi = Some rhi /\ In (Presence None) rhi)
  /\ In (VStr "minValue") (requiredOf numberShape)
  /\ In (VStr "maxValue") (requiredOf numberShape).
Proof.
  intros Hmin Hmax cs.
  assert (Hlo : cs !! "minValue"
     = Some [Numericality VUndefined VUndefined false; LessThanAttribute "maxValue"])
    by (vm_compute; reflexivity).
  assert (Hhi : cs !! "maxValue" = Some [Numericality VUndefined VUndefined false])
    by (vm_compute; reflexivity).
  split; [|split; [|split; [exact Hlo|split; [exact Hhi|split]]]].
  - rewrite validate_lookup, Hlo. cbn [mbind option_bind].
    unfold validateAttribute. rewrite Hmin. reflexivity.
  - rewrite validate_lookup, Hhi. cbn [mbind option_bind].
    unfold validateAttribute. rewrite Hmax. reflexivity.
  - exact bounded_kind_presence.
  - split; vm_compute; tauto.
Qed.

(** A definition whose one field is a NUMBER without bounds passes
    [$beforeValidate]. *)
Lemma number_bounds_may_be_omitted_witness :
  (attr openNumberField "minValue" = VUndefined
   /\ attr openNumberField "maxValue" = VUndefined)
  /\ validate stubEnv openNumberField (constraintsFor stubEnv (VStr "NUMBER")) !! "minValue"
     = None
  /\ validate stubEnv openNumberField (constraintsFor stubEnv (VStr "NUMBER")) !! "maxValue"
     = None
  /\ beforeValidate stubEnv jsonSchema (definitionOf "Result" [openNumberField])
     = Return jsonSchema.
Proof.
  split; [split; reflexivity|].
  pose proof (number_bounds_may_be_omitted stubEnv openNumberField eq_refl eq_refl)
    as (H1 & H2 & _).
  split; [exact H1|]. split; [exact H2|]. vm_compute. reflexivity.
Defined.

(** * Further properties of the entry type *)

(** ** [$beforeValidate]: which outcome, and when *)

(** X1.  [$beforeValidate] accepts a definition, that is returns the schema
    it was given, exactly when: the top-level attributes break no rule,
    [fields] is an array without [null], no two names are the same value,
    every tag that is there is one of the ten kinds, and every field either
    breaks no rule of the constraint set of its tag or has a name that
    makes the key [__proto__], under which its violations are lost. *)
Theorem beforeValidate_accepts_iff
    (env : Env) (jsonSchema0 : value) (json : object) :
  beforeValidate env jsonSchema0 json = Return jsonSchema0
  <-> noErrors (validate env json entryTypeConstraints) = true
      /\ exists fs, attr json "fields" = VArr fs
           /\ existsb isNullish fs = false
           /\ Nat.eqb (length (map fieldName fs))
                      (length (uniq (map fieldName fs))) = true
           /\ existsb (fun f => unknownTag (fieldTag f)) fs = false
           /\ forallb (fun f =>
                         noErrors (validate env (asObject f)
                                     (constraintsFor env (fieldTag f)))
                         || String.eqb (toString env (fieldName f)) "__proto__")
                fs = true.
Proof.
  unfold beforeValidate. fold fieldName.
  destruct (noErrors (validate env json entryTypeConstraints)); cbn [negb];
    [|split; [discriminate|intros [H _]; discriminate]].
  destruct (attr json "fields") as [| | | | |fs|] eqn:Hf;
    try (split; [discriminate|intros (_ & fs' & E & _); discriminate]).
  destruct (existsb isNullish fs) eqn:Hn.
  { split; [discriminate|]. intros (_ & fs' & E & Hn' & _). congruence. }
  destruct (Nat.eqb _ _) eqn:Hu; cbn [negb].
  2:{ split; [discriminate|]. intros (_ & fs' & E & _ & Hu' & _).
      inversion E; subst fs'. congruence. }
  destruct (forEachField env fs ∅) as [m|e] eqn:Hloop.
  - destruct (noErrors m) eqn:Hm; cbn [negb].
    + apply noErrors_empty in Hm. subst m.
      apply forEachField_clean in Hloop as [Hk Hall].
      split; [|reflexivity]. intros _. split; [reflexivity|].
      exists fs. repeat split; assumption.
    + split; [discriminate|]. intros (_ & fs' & E & _ & _ & Hk & Hall).
      inversion E; subst fs'.
      assert (Hc : forEachField env fs ∅ = Return ∅)
        by (apply forEachField_clean; split; assumption).
      rewrite Hloop in Hc. inversion Hc; subst m.
      assert (noErrors (∅ : gmap string errors) = true) by (apply noErrors_empty; reflexivity).
      congruence.
  - split; [discriminate|]. intros (_ & fs' & E & _ & _ & Hk & Hall).
    inversion E; subst fs'.
    assert (Hc : forEachField env fs ∅ = Return ∅)
      by (apply forEachField_clean; split; assumption).
    congruence.
Qed.

Lemma top_level_keys env (json : object) k :
  is_Some (validate env json entryTypeConstraints !! k) ->
  In k ["name"; "description"; "metadata"; "projectId"; "userId"; "fields"].
Proof.
  intros [e He]. rewrite validate_lookup in He.
  destruct (entryTypeConstraints !! k) as [rules|] eqn:Hk; [|discriminate].
  assert (Hdom : k ∈ dom entryTypeConstraints) by (apply elem_of_dom; eauto).
  replace (dom entryTypeConstraints)
    with (list_to_set ["name"; "description"; "metadata"; "projectId";
                       "userId"; "fields"] : gset string) in Hdom
    by compute_done.
  apply elem_of_list_to_set in Hdom. apply list_elem_of_In. exact Hdom.
Qed.

(** X2.  [$beforeValidate] throws the top-level error exactly when the
    top-level attributes break a rule, whatever [fields] holds; the error
    carries the violations of the top-level attributes, and so entries for
    name, description, metadata, projectId, userId and fields only. *)
Theorem top_level_errors_come_first
    (env : Env) (jsonSchema0 : value) (json : object) (errs : errors) :
  (beforeValidate env jsonSchema0 json = Throw (Validation (WithErrors errs))
   <-> errs = validate env json entryTypeConstraints /\ noErrors errs = false)
  /\ (forall k, is_Some (validate env json entryTypeConstraints !! k) ->
        In k ["name"; "description"; "metadata"; "projectId"; "userId"; "fields"]).
Proof.
  split; [|apply top_level_keys].
  unfold beforeValidate.
  destruct (noErrors (validate env json entryTypeConstraints)) eqn:Htop; cbn [negb].
  - split; [|intros [-> H]; congruence].
    destruct (attr json "fields") as [| | | | |fs|];
      [discriminate|discriminate|discriminate|discriminate|discriminate|
      |discriminate].
    destruct (existsb isNullish fs); [discriminate|].
    destruct (negb _); [discriminate|].
    destruct (forEachField env fs ∅) as [m|e] eqn:Hloop.
    + destruct (negb (noErrors m)); discriminate.
    + destruct (forEachField_throws env fs ∅ e Hloop) as (f & _ & _ & ->).
      discriminate.
  - split.
    + intros H. assert (E : validate env json entryTypeConstraints = errs)
        by congruence.
      rewrite <- E. split; [reflexivity|exact Htop].
    + intros [-> _]. reflexivity.
Qed.


(** A definition whose [fields] is the string "abc" passes the top-level
    check and ends in a TypeError. *)
Example fields_string_is_a_type_error :
  beforeValidate stubEnv jsonSchema
    [("name", VStr "Post"); ("projectId", num 1); ("userId", num 1);
     ("fields", VStr "abc")]
  = Throw TypeError.
Proof. vm_compute. reflexivity. Qed.

(** X4.  [$beforeValidate] throws "Field names must be unique" exactly when
    the top-level attributes break no rule, [fields] is an array without
    [null], and two of its elements have names that are the same value;
    two fields that both lack a name count. *)
Theorem unique_names_error_iff
    (env : Env) (jsonSchema0 : value) (json : object) :
  beforeValidate env jsonSchema0 json
  = Throw (Validation (WithMessage "Field names must be unique"))
  <-> noErrors (validate env json entryTypeConstraints) = true
      /\ exists fs, attr json "fields" = VArr fs
           /\ existsb isNullish fs = false
           /\ exists i j fi fj, i <> j /\ fs !! i = Some fi /\ fs !! j = Some fj
                /\ strictEq (fieldName fi) (fieldName fj) = true.
Proof.
  assert (Hidx : forall fs,
    Nat.eqb (length (map fieldName fs)) (length (uniq (map fieldName fs))) = false
    <-> exists i j fi fj, i <> j /\ fs !! i = Some fi /\ fs !! j = Some fj
          /\ strictEq (fieldName fi) (fieldName fj) = true).
  { intros fs. rewrite uniq_check_fails_iff. split.
    - intros (i & j & x & y & Hij & Hi & Hj & Hxy).
      rewrite list_lookup_fmap in Hi, Hj.
      destruct (fs !! i) as [fi|] eqn:Ei; [|discriminate].
      destruct (fs !! j) as [fj|] eqn:Ej; [|discriminate].
      cbn in Hi, Hj. inversion Hi; inversion Hj; subst.
      exists i, j, fi, fj. repeat split; assumption.
    - intros (i & j & fi & fj & Hij & Hi & Hj & Hxy).
      exists i, j, (fieldName fi), (fieldName fj).
      rewrite !list_lookup_fmap, Hi, Hj. repeat split; assumption. }
  unfold beforeValidate. fold fieldName.
  destruct (noErrors (validate env json entryTypeConstraints)); cbn [negb];
    [|split; [discriminate|intros [H _]; discriminate]].
  destruct (attr json "fields") as [| | | | |fs|] eqn:Hf;
    try (split; [discriminate|intros (_ & fs' & E & _); discriminate]).
  destruct (existsb isNullish fs) eqn:Hn.
  { split; [discriminate|]. intros (_ & fs' & E & Hn' & _). congruence. }
  destruct (Nat.eqb _ _) eqn:Hu; cbn [negb].
  - split.
    + destruct (forEachField env fs ∅) as [m|e] eqn:Hloop.
      * destruct (negb (noErrors m)); discriminate.
      * destruct (forEachField_throws env fs ∅ e Hloop) as (f & _ & _ & ->).
        intros H. inversion H.
    + intros (_ & fs' & E & _ & Hex). inversion E; subst fs'.
      apply Hidx in Hex. congruence.
  - split; [|reflexivity]. intros _. split; [reflexivity|].
    exists fs. repeat split; [exact Hn|]. apply Hidx. exact Hu.
Qed.

(** Two fields without a name are refused as having the same name. *)
Example nameless_fields_clash :
  beforeValidate stubEnv jsonSchema
    (definitionOf "Post" [namelessField; titleField; namelessField])
  = Throw (Validation (WithMessage "Field names must be unique")).
Proof. vm_compute. reflexivity. Qed.

(** X5.  The mapping of field errors that [$beforeValidate] throws holds
    nothing but the violations of the fields: every entry is, under the
    name of a field, all the violations of that field, and is not empty;
    no entry is under [__proto__].  A field with violations whose name no
    other field shares, and does not make the key [__proto__], has its own
    entry, so that the violations of all such fields are reported
    together. *)
Theorem field_errors_are_the_violations_of_the_fields
    (env : Env) (jsonSchema0 : value) (json : object) (fs : list value)
    (m : gmap string errors) :
  beforeValidate env jsonSchema0 json = Throw (Validation (WithFieldErrors m)) ->
  attr json "fields" = VArr fs ->
  noErrors m = false
  /\ m !! "__proto__" = None
  /\ (forall k e, m !! k = Some e ->
        exists f, In f fs /\ toString env (fieldName f) = k
          /\ e = validate env (asObject f) (constraintsFor env (fieldTag f))
          /\ noErrors e = false)
  /\ (forall f, In f fs ->
        noErrors (validate env (asObject f) (constraintsFor env (fieldTag f)))
        = false ->
        toString env (fieldName f) <> "__proto__" ->
        (forall g, In g fs ->
           toString env (fieldName g) = toString env (fieldName f) -> g = f) ->
        m !! toString env (fieldName f)
        = Some (validate env (asObject f) (constraintsFor env (fieldTag f)))).
Proof.
  intros H Hf.
  destruct (beforeValidate_field_errors env jsonSchema0 json m H)
    as (fs' & Hfs' & Hloop & Hm).
  assert (fs' = fs) as -> by congruence.
  destruct (forEachField_entries env fs ∅ m Hloop) as [Hkeys Hfields].
  split; [exact Hm|]. split; [|split].
  - destruct (m !! "__proto__") as [e|] eqn:Hp; [|reflexivity].
    destruct (Hkeys _ _ Hp) as [Hacc|[Hne _]]; [|contradiction].
    rewrite lookup_empty in Hacc. discriminate.
  - intros k e Hk. destruct (Hkeys k e Hk) as [Hacc|[_ Hex]]; [|exact Hex].
    rewrite lookup_empty in Hacc. discriminate.
  - intros f Hin Hbad Hkey Huniq.
    apply Hfields; [exact Hbad|exact Hkey|exact Huniq|left; exact Hin].
Qed.

(** A field with its bounds in the wrong order and a BOOLEAN field with a
    short label and no value labels: both are in the mapping. *)
Lemma field_errors_are_the_violations_of_the_fields_witness :
  let json := definitionOf "Post" [swappedField; titleField; flagField] in
  let m : gmap string errors :=
    {[ "swapped" := {[ "minLength" := [NotLessThan "maxLength"] ]};
       "flag" := {[ "label" := [TooShort (inject_Z 4)];
                    "labelTrue" := [Blank]; "labelFalse" := [Blank] ]} ]} in
  (beforeValidate stubEnv jsonSchema json = Throw (Validation (WithFieldErrors m))
   /\ attr json "fields" = VArr (map VObj [swappedField; titleField; flagField]))
  /\ noErrors m = false
  /\ m !! "title" = None.
Proof.
  intros json m.
  assert (H : beforeValidate stubEnv jsonSchema json
              = Throw (Validation (WithFieldErrors m)))
    by (vm_compute; reflexivity).
  split; [split; [exact H|reflexivity]|].
  split; [|vm_compute; reflexivity].
  exact (proj1 (field_errors_are_the_violations_of_the_fields stubEnv jsonSchema
                  json _ m H eq_refl)).
Defined.

(** X6.  A definition without [fields] (or with [null] for it) is refused
    by the top-level check, with the presence violation under "fields";
    the loop over the fields is not reached. *)
Theorem missing_fields_is_a_top_level_error
    (env : Env) (jsonSchema0 : value) (json : object) :
  isNullish (attr json "fields") = true ->
  exists errs,
    beforeValidate env jsonSchema0 json = Throw (Validation (WithErrors errs))
    /\ errs !! "fields" = Some [Blank].
Proof.
  intros Hnull.
  assert (Hf : validate env json entryTypeConstraints !! "fields" = Some [Blank]).
  { rewrite validate_lookup.
    replace (entryTypeConstraints !! "fields") with (Some [Presence (Some true)])
      by reflexivity.
    cbn [mbind option_bind]. unfold validateAttribute, violationsOf.
    cbn [map concat runValidator app]. unfold isDefined. rewrite Hnull.
    reflexivity. }
  exists (validate env json entryTypeConstraints). split; [|exact Hf].
  unfold beforeValidate.
  rewrite (noErrors_false_lookup _ "fields"); [reflexivity|].
  rewrite Hf. eauto.
Qed.

Lemma missing_fields_is_a_top_level_error_witness :
  let json := [("name", VStr "Post"); ("projectId", num 1); ("userId", num 1)] in
  isNullish (attr json "fields") = true
  /\ (exists errs,
        beforeValidate stubEnv jsonSchema json
        = Throw (Validation (WithErrors errs))
        /\ errs !! "fields" = Some [Blank])
  /\ beforeValidate stubEnv jsonSchema json
     = Throw (Validation (WithErrors {[ "fields" := [Blank] ]})).
Proof.
  intros json. split; [reflexivity|].
  split; [|vm_compute; reflexivity].
  exact (missing_fields_is_a_top_level_error stubEnv jsonSchema json eq_refl).
Defined.

(** ** [validateEntryFields]: the rules of a field *)

(** One step through the chain of [if]s of [fieldConstraints]. *)
Ltac chain_step :=
  match goal with
  | |- context [if ?b then _ else _] => destruct b eqn:?
  end.

(** X7.  The ruleset of a field holds the presence rule, in the form
    [presence: true], exactly when [field.required] is truthy; no branch of
    the kinds adds or removes it. *)
Theorem presence_rule_iff_required
    (field : object) (projectId : value) (allowEmpty : option bool) :
  In (Presence allowEmpty) (fieldConstraints field projectId)
  <-> allowEmpty = None /\ truthy (attr field "required") = true.
Proof.
  unfold fieldConstraints.
  repeat (chain_step; cbn [orb]); cbn [app In];
    intuition (try discriminate; try congruence).
Qed.

(** X8.  [validateEntryFields] has no branch for a kind outside the ten: a
    field whose tag is none of them gets the presence rule of a required
    field and nothing else, so that, when it is not required, no value
    breaks a rule. *)
Theorem unknown_kind_gets_presence_only
    (env : Env) (field : object) (projectId : value) :
  existsb (strictEq (attr field "fieldType")) (map VStr fieldTypes) = false ->
  fieldConstraints field projectId = presenceRule field
  /\ (truthy (attr field "required") = false ->
      forall x attributes,
        violationsOf env (fieldConstraints field projectId) x attributes = []).
Proof.
  intros H. cbn [fieldTypes fieldTypeConstraints map fst existsb] in H.
  repeat (apply orb_false_iff in H as [? H]).
  assert (E : fieldConstraints field projectId = presenceRule field).
  { unfold fieldConstraints, presenceRule.
    repeat match goal with
           | Hk : strictEq (attr field "fieldType") _ = false |- _ =>
               rewrite Hk; clear Hk
           end.
    cbn [orb]. apply app_nil_r. }
  split; [exact E|]. intros Hreq x attributes.
  rewrite E. unfold presenceRule. rewrite Hreq. reflexivity.
Qed.

Lemma unknown_kind_gets_presence_only_witness :
  existsb (strictEq (attr bogusField "fieldType")) (map VStr fieldTypes) = false
  /\ fieldConstraints bogusField (num 1) = []
  /\ validateEntryFields stubEnv {| fields := [bogusField] |}
       [("other", VArr [VNull; num 3])] (num 1)
     = Resolved [("other", VArr [VNull; num 3])].
Proof.
  split; [reflexivity|]. split; [|vm_compute; reflexivity].
  exact (proj1 (unknown_kind_gets_presence_only stubEnv bogusField (num 1)
                  eq_refl)).
Defined.

(** ** [validateEntryFields]: the compiled constraints *)

Lemma buildConstraints_dom env (fs : list object) pid (cs : constraints) :
  dom (buildConstraints env fs pid cs)
  = list_to_set (List.filter (fun key => negb (isProtoKey key))
                   (map (fieldKey env) (List.filter enabled fs)))
    ∪ dom cs.
Proof.
  revert cs. induction fs as [|f rest IH]; intros cs.
  - cbn [buildConstraints List.filter map list_to_set].
    symmetry. apply (left_id_L ∅ (∪)).
  - cbn [buildConstraints List.filter].
    destruct (truthy (attr f "disabled")) eqn:E.
    + assert (enabled f = false) as -> by (unfold enabled; rewrite E; reflexivity).
      apply IH.
    + assert (enabled f = true) as -> by (unfold enabled; rewrite E; reflexivity).
      rewrite IH. cbn [map List.filter]. fold (fieldKey env f).
      unfold setOwnProperty. destruct (isProtoKey (fieldKey env f)); cbn [negb].
      * reflexivity.
      * rewrite dom_insert_L. cbn [list_to_set].
        rewrite (assoc_L (∪)).
        rewrite (comm_L (∪) _ {[fieldKey env f]}).
        reflexivity.
Qed.

(** X9.  The compiled constraints hold, under a name, the ruleset of the
    last field of the entry type that is not disabled and has that name,
    and nothing under a name that no such field has, nor under
    [__proto__]: their keys are the names of the fields that are not
    disabled, that one left out. *)
Theorem compiled_constraints_lookup
    (env : Env) (this : EntryType) (projectId : value) (k : string) :
  entryConstraints env this projectId !! k
  = (if String.eqb k "__proto__" then None
     else (fun f => fieldConstraints f projectId)
            <$> last (List.filter
                        (fun f => enabled f && String.eqb (fieldKey env f) k)
                        (fields this)))
  /\ dom (entryConstraints env this projectId)
     = list_to_set (List.filter (fun key => negb (String.eqb key "__proto__"))
                      (map (fieldKey env) (List.filter enabled (fields this)))).
Proof.
  split; [apply entryConstraints_lookup|].
  unfold entryConstraints. rewrite buildConstraints_dom, dom_empty_L.
  apply (right_id_L ∅ (∪)).
Qed.

(** A definition with a field named [__proto__] and a field named
    "body": the constraints have the one key "body". *)
Example proto_field_has_no_constraints :
  dom (entryConstraints stubEnv {| fields := [protoField; bodyField] |} (num 1))
  = ({[ "body" ]} : gset string).
Proof. compute_done. Qed.

Lemma rejected_iff env (this : EntryType) (entry : object) pid errs :
  validateEntryFields env this entry pid = Rejected errs
  <-> errs = validate env entry (entryConstraints env this pid) /\ noErrors errs = false.
Proof.
  unfold validateEntryFields, validate_async.
  destruct (noErrors (validate env entry (entryConstraints env this pid))) eqn:E.
  - split; [discriminate|]. intros [-> H]. congruence.
  - split.
    + intros H. assert (E' : validate env entry (entryConstraints env this pid) = errs)
        by congruence.
      rewrite <- E'. split; [reflexivity|exact E].
    + intros [-> _]. reflexivity.
Qed.

(** X10.  When [validateEntryFields] rejects a record, the mapping is not
    empty, and every entry of it is the non-empty list of the violations
    of the record's value under the ruleset of a field of the entry type
    that is not disabled, stored under that field's name: nothing is
    reported for a disabled field or for an attribute of the record that
    is no field. *)
Theorem rejection_names_enabled_fields
    (env : Env) (this : EntryType) (entry : object) (projectId : value)
    (errs : errors) :
  validateEntryFields env this entry projectId = Rejected errs ->
  noErrors errs = false
  /\ forall k es, errs !! k = Some es ->
       es <> []
       /\ exists f, In f (fields this) /\ enabled f = true /\ fieldKey env f = k
            /\ es = violationsOf env (fieldConstraints f projectId)
                      (attr entry k) entry.
Proof.
  intros H. apply rejected_iff in H as [-> Hne]. split; [exact Hne|].
  intros k es Hk. rewrite validate_lookup in Hk.
  rewrite entryConstraints_lookup in Hk.
  destruct (isProtoKey k); [discriminate|].
  destruct (last _) as [f|] eqn:Hlast; [|discriminate].
  cbn [fmap option_fmap option_map mbind option_bind] in Hk.
  unfold validateAttribute in Hk.
  destruct (violationsOf env (fieldConstraints f projectId) (attr entry k) entry)
    as [|e es'] eqn:Hv; [discriminate|].
  inversion Hk; subst es. split; [discriminate|].
  apply last_Some in Hlast as [l' Hl'].
  assert (Hin : In f (List.filter (fun f => enabled f && String.eqb (fieldKey env f) k)
                        (fields this))).
  { rewrite Hl'. apply in_or_app. right. left. reflexivity. }
  apply filter_In in Hin as [Hin Hcond]. apply andb_true_iff in Hcond as [He Hkey].
  apply String.eqb_eq in Hkey.
  exists f. repeat split; [exact Hin|exact He|exact Hkey|symmetry; exact Hv].
Qed.

(** A record with a wrong choice, a value for the disabled field and an
    attribute that is no field: the one entry is that of the choice. *)
Lemma rejection_names_enabled_fields_witness :
  let this := {| fields := [hiddenField; colourChoiceField] |} in
  let entry := [("colour", VArr [VStr "d"]); ("hidden", num 7);
                ("stray", VBool true)] in
  let errs : errors := {[ "colour" := [NotInChoices] ]} in
  validateEntryFields stubEnv this entry (num 1) = Rejected errs
  /\ noErrors errs = false
  /\ errs !! "hidden" = None
  /\ errs !! "stray" = None.
Proof.
  intros this entry errs.
  assert (H : validateEntryFields stubEnv this entry (num 1) = Rejected errs)
    by (vm_compute; reflexivity).
  split; [exact H|].
  split; [|split; vm_compute; reflexivity].
  exact (proj1 (rejection_names_enabled_fields stubEnv this entry (num 1) errs H)).
Defined.

(** X11.  An entry type without a field that is not disabled, and so one
    without fields, rejects no record. *)
Theorem no_enabled_field_no_rejection
    (env : Env) (this : EntryType) (entry : object) (projectId : value) :
  forallb (fun f => negb (enabled f)) (fields this) = true ->
  entryConstraints env this projectId = ∅
  /\ forall errs, validateEntryFields env this entry projectId <> Rejected errs.
Proof.
  intros Hall.
  assert (E : entryConstraints env this projectId = ∅).
  { apply map_eq. intros k. rewrite entryConstraints_lookup, lookup_empty.
    assert (Hnil : List.filter (fun f => enabled f && String.eqb (fieldKey env f) k)
                     (fields this) = []).
    { rewrite forallb_forall in Hall.
      induction (fields this) as [|f rest IH]; [reflexivity|].
      cbn [List.filter].
      assert (Hf : negb (enabled f) = true) by (apply Hall; left; reflexivity).
      apply negb_true_iff in Hf. rewrite Hf. cbn [andb].
      apply IH. intros g Hg. apply Hall. right. exact Hg. }
    rewrite Hnil. destruct (isProtoKey k); reflexivity. }
  split; [exact E|]. intros errs H. apply rejected_iff in H as [-> Hne].
  rewrite E in Hne. unfold validate in Hne. rewrite map_imap_empty in Hne.
  assert (noErrors (∅ : errors) = true) by (apply noErrors_empty; reflexivity).
  congruence.
Qed.

Lemma no_enabled_field_no_rejection_witness :
  let this := {| fields := [hiddenField] |} in
  forallb (fun f => negb (enabled f)) (fields this) = true
  /\ entryConstraints stubEnv this (num 1) = ∅
  /\ validateEntryFields stubEnv {| fields := [] |} [("title", num 1)] (num 1)
     = Resolved [("title", num 1)].
Proof.
  intros this. split; [reflexivity|]. split; [|vm_compute; reflexivity].
  exact (proj1 (no_enabled_field_no_rejection stubEnv this [] (num 1) eq_refl)).
Defined.

(** ** The constraint tables and the schema document *)

(** X13.  Merging the constraints of a kind over the common ones changes
    none of them: in each of the ten constraint sets the rules of
    fieldType, name, label, description, required and disabled are the
    common ones, and the rules of the kind's own attributes are those of
    its table.  Every shape of the schema document likewise declares name,
    label, description, required and disabled as the common attributes
    do. *)
Theorem common_parts_are_shared :
  Forall (fun kc =>
            forall k, k ∈ dom commonFieldConstraints ->
                      snd kc !! k = commonFieldConstraints !! k)
         fieldTypeConstraints
  /\ Forall2 (fun kc specific =>
                forall k, k ∈ dom (specific : constraints) ->
                          snd kc !! k = specific !! k)
       fieldTypeConstraints
       [textFieldConstraints; longTextFieldConstraints; booleanFieldConstraints;
        numberFieldConstraints; dateFieldConstraints; choiceFieldConstraints;
        colorFieldConstraints; mediaFieldConstraints; linkFieldConstraints;
        listFieldConstraints]
  /\ Forall (fun sh =>
               Forall (fun kv => shapeProperty sh (fst kv) = snd kv)
                      commonFieldAttributes)
       shapes.
Proof.
  split; [|split].
  - assert (Hdom : dom commonFieldConstraints
                   = (list_to_set ["fieldType"; "name"; "label"; "description";
                                   "required"; "disabled"] : gset string))
      by compute_done.
    unfold fieldTypeConstraints.
    repeat (apply List.Forall_cons; [
      cbn [snd]; intros k Hk; rewrite Hdom in Hk;
      apply elem_of_list_to_set, list_elem_of_In in Hk; cbn [In] in Hk;
      repeat (destruct Hk as [<-|Hk]; [vm_compute; reflexivity|]);
      destruct Hk |]).
    apply List.Forall_nil.
  - unfold fieldTypeConstraints.
    repeat (apply List.Forall2_cons; [
      cbn [snd]; intros k Hk; unfold assign;
      apply elem_of_dom in Hk as [rules Hk]; rewrite Hk;
      apply lookup_union_Some_l; exact Hk |]).
    apply List.Forall2_nil.
  - unfold shapes.
    cbn [getPath attr asObject jsonSchema String.eqb Ascii.eqb Bool.eqb].
    repeat (apply List.Forall_cons; [
      repeat (apply List.Forall_cons; [vm_compute; reflexivity|]);
      apply List.Forall_nil |]).
    apply List.Forall_nil.
Qed.

(** X14.  The two tables allow the same formats: for each of the ten
    kinds, the values that the inclusion rule of [format] allows in the
    constraint set are, in the same order, the [enum] of the [format]
    property of the kind's shape; BOOLEAN, MEDIA, LINK and LIST have
    neither. *)
Theorem formats_agree :
  Forall2 (fun kc sh =>
             includedValues (rulesOf (snd kc) "format")
             = schemaEnum (shapeProperty sh "format"))
    fieldTypeConstraints shapes
  /\ map (fun kc => (fst kc, includedValues (rulesOf (snd kc) "format")))
       fieldTypeConstraints
     = [ ("TEXT", Some [VStr "plaintext"; VStr "uri"; VStr "email"]);
         ("LONGTEXT", Some [VStr "plaintext"; VStr "markdown"]);
         ("BOOLEAN", None);
         ("NUMBER", Some [VStr "number"; VStr "integer"]);
         ("DATE", Some [VStr "datetime"; VStr "date"]);
         ("CHOICE", Some [VStr "single"; VStr "multiple"]);
         ("COLOR", Some [VStr "rgb"; VStr "rgba"]);
         ("MEDIA", None); ("LINK", None); ("LIST", None) ].
Proof.
  split; [|vm_compute; reflexivity].
  unfold fieldTypeConstraints, shapes.
  cbn [getPath attr asObject jsonSchema String.eqb Ascii.eqb Bool.eqb].
  repeat (apply List.Forall2_cons; [vm_compute; reflexivity|]).
  apply List.Forall2_nil.
Qed.

(** X15.  The two tables set the same bounds: for each kind, the integer
    bounds of minLength and of maxLength in the constraint set are the
    [minimum] and [maximum] of the integer property of the shape (none at
    all where the kind has no such attribute), and the length bounds of
    name, label, labelTrue and labelFalse are the [minLength] and
    [maxLength] of the string property. *)
Theorem bounds_agree :
  Forall2 (fun kc sh =>
             Forall (fun k => integerBounds (rulesOf (snd kc) k)
                              = schemaIntegerRange (shapeProperty sh k))
                    ["minLength"; "maxLength"]
             /\ Forall (fun k => lengthBounds (rulesOf (snd kc) k)
                                 = schemaStringLength (shapeProperty sh k))
                       ["name"; "label"; "labelTrue"; "labelFalse"])
    fieldTypeConstraints shapes.
Proof.
  unfold fieldTypeConstraints, shapes.
  cbn [getPath attr asObject jsonSchema String.eqb Ascii.eqb Bool.eqb].
  repeat (apply List.Forall2_cons; [
    split; repeat (apply List.Forall_cons; [vm_compute; reflexivity|]);
    apply List.Forall_nil |]).
  apply List.Forall2_nil.
Qed.

(** ** [existsInProject] *)

Lemma parseDigits_decimal (d : Decimal.uint) (m : nat) :
  parseDigits 10 (NilEmpty.string_of_uint d) (Some (Z.of_nat m))
  = Some (Z.of_nat (Nat.of_uint_acc d m)).
Proof.
  revert m.
  induction d; intros m; cbn [NilEmpty.string_of_uint Nat.of_uint_acc parseDigits];
    [reflexivity|..];
    match goal with
    | |- context [digitValue ?c] =>
        let v := eval vm_compute in (digitValue c) in
        change (digitValue c) with v
    end;
    cbn beta iota;
    match goal with
    | |- context [(?a <? 10)%Z] => change (a <? 10)%Z with true
    end;
    cbn beta iota;
    match goal with
    | |- parseDigits _ _ (Some ?z) = Some (Z.of_nat (Nat.of_uint_acc _ ?k)) =>
        replace z with (Z.of_nat k);
        [apply IHd | rewrite ?Nat.tail_mul_spec; cbn [from_option id]; lia]
    end.
Qed.

Lemma decimal_digit_facts (c : ascii) :
  isDecimalDigit c = true ->
  isSpace c = false /\ Ascii.eqb c "-" = false /\ Ascii.eqb c "+" = false
  /\ isX c = false.
Proof.
  destruct c as [[] [] [] [] [] [] [] []]; vm_compute; intros H;
    first [discriminate H | repeat split].
Qed.

Lemma decimal_string_digits (d : Decimal.uint) :
  forallb isDecimalDigit (list_ascii_of_string (NilEmpty.string_of_uint d)) = true.
Proof.
  induction d; cbn [NilEmpty.string_of_uint list_ascii_of_string forallb];
    [reflexivity|..]; rewrite IHd; reflexivity.
Qed.

Lemma parseInt_digits (c : ascii) (rest : string) :
  forallb isDecimalDigit (list_ascii_of_string (String c rest)) = true ->
  parseInt (String c rest)
  = match parseDigits 10 (String c rest) None with
    | Some n => Some n
    | None => None
    end.
Proof.
  cbn [list_ascii_of_string forallb]. intros H.
  apply andb_true_iff in H as [Hc Hrest].
  destruct (decimal_digit_facts c Hc) as (Hs & Hm & Hp & _).
  unfold parseInt. cbn [skipSpaces]. rewrite Hs, Hm, Hp. cbn [fst snd].
  destruct rest as [|x rest']; [reflexivity|].
  cbn [list_ascii_of_string forallb] in Hrest.
  apply andb_true_iff in Hrest as [Hx _].
  destruct (decimal_digit_facts x Hx) as (_ & _ & _ & HX).
  rewrite HX, andb_false_r. reflexivity.
Qed.

(** [parseInt] reads back the decimal digits of a count. *)
Lemma parseInt_decimal (n : nat) :
  parseInt (NilZero.string_of_uint (Nat.to_uint n)) = Some (Z.of_nat n).
Proof.
  rewrite <- (Unsigned.of_to n) at 2. unfold Nat.of_uint.
  pose proof (decimal_string_digits (Nat.to_uint n)) as Hd.
  pose proof (parseDigits_decimal (Nat.to_uint n) 0) as Hp.
  change (Z.of_nat 0) with 0%Z in Hp.
  destruct (Nat.to_uint n) as [|d|d|d|d|d|d|d|d|d|d]; [reflexivity|..];
    cbn [NilZero.string_of_uint NilEmpty.string_of_uint] in *;
    rewrite (parseInt_digits _ _ Hd);
    cbn [parseDigits] in *;
    match goal with
    | |- context [digitValue ?c] =>
        let v := eval vm_compute in (digitValue c) in
        change (digitValue c) with v in *
    end;
    cbn beta iota in *;
    match goal with
    | |- context [(?a <? 10)%Z] => change (a <? 10)%Z with true in *
    end;
    cbn beta iota in *; cbn [from_option id] in *;
    rewrite Hp; reflexivity.
Qed.

(** X16.  [existsInProject] answers true exactly when the count that the
    database hands over, a number in decimal digits, is not zero:
    [parseInt] reads the digits back as the number they say, whatever else
    the row holds.  A row without a count gives false. *)
Theorem existsInProject_iff_count_not_zero (env : Env) :
  (forall (n : nat) (others : object),
     existsInProject_answer env (("count", VStr (decimalDigits n)) :: others) = true
     <-> n <> 0%nat)
  /\ (forall result : object,
        attr result "count" = VUndefined ->
        existsInProject_answer env result = false).
Proof.
  split.
  - intros n others. unfold existsInProject_answer, decimalDigits.
    cbn [attr String.eqb Ascii.eqb Bool.eqb toString].
    rewrite parseInt_decimal. cbn [toBoolean].
    rewrite negb_true_iff, Z.eqb_neq. lia.
  - intros result H. unfold existsInProject_answer. rewrite H. reflexivity.
Qed.

Example existsInProject_counts :
  existsInProject_answer stubEnv [("count", VStr "0")] = false
  /\ existsInProject_answer stubEnv [("count", VStr "1")] = true
  /\ existsInProject_answer stubEnv [("count", VStr "12")] = true.
Proof. repeat split. Qed.

(** ** [init-config.js] *)

Lemma hex_digit_is_no_dash (c : ascii) :
  isHexDigit c = true -> Ascii.eqb c "-" = false.
Proof.
  destruct c as [[] [] [] [] [] [] [] []]; vm_compute; intros H;
    first [discriminate H | reflexivity].
Qed.

Lemma append_cons (c : ascii) (s t : string) :
  (String c s ++ t)%string = String c (s ++ t)%string.
Proof. reflexivity. Qed.

Lemma removeDashes_app (s t : string) :
  removeDashes (s ++ t) = (removeDashes s ++ removeDashes t)%string.
Proof.
  induction s as [|c s IH]; [reflexivity|].
  rewrite append_cons. cbn [removeDashes]. destruct (Ascii.eqb c "-"); [exact IH|].
  rewrite append_cons, IH. reflexivity.
Qed.

Lemma dropHex_Some (n : nat) (s r : string) :
  dropHex n s = Some r ->
  exists h, s = (h ++ r)%string /\ String.length h = n
            /\ forallb isHexDigit (list_ascii_of_string h) = true
            /\ removeDashes h = h.
Proof.
  revert s. induction n as [|n IH]; intros s H.
  - inversion H; subst. exists EmptyString. repeat split.
  - cbn [dropHex] in H. destruct s as [|c rest]; [discriminate|].
    destruct (isHexDigit c) eqn:Hc; [|discriminate].
    destruct (IH rest H) as (h & -> & Hlen & Hhex & Hrm).
    exists (String c h). rewrite append_cons.
    cbn [String.length list_ascii_of_string forallb removeDashes].
    rewrite Hlen, Hc, Hhex, Hrm, (hex_digit_is_no_dash c Hc). repeat split.
Qed.

Lemma string_length_app (s t : string) :
  String.length (s ++ t) = (String.length s + String.length t)%nat.
Proof.
  induction s as [|c s IH]; [reflexivity|].
  rewrite append_cons. cbn [String.length]. rewrite IH. reflexivity.
Qed.

Lemma hex_string_app (s t : string) :
  forallb isHexDigit (list_ascii_of_string (s ++ t))
  = forallb isHexDigit (list_ascii_of_string s)
    && forallb isHexDigit (list_ascii_of_string t).
Proof.
  induction s as [|c s IH]; [reflexivity|].
  rewrite append_cons. cbn [list_ascii_of_string forallb]. rewrite IH.
  apply andb_assoc.
Qed.

(** One group of a uuid and the dash after it. *)
Lemma group_then_dash (n : nat) (s : string) (c : ascii) (r : string) :
  dropHex n s = Some (String c r) -> Ascii.eqb c "-" = true ->
  exists h, String.length h = n
            /\ forallb isHexDigit (list_ascii_of_string h) = true
            /\ removeDashes s = (h ++ removeDashes r)%string.
Proof.
  intros H Hc. destruct (dropHex_Some n s _ H) as (h & -> & Hlen & Hhex & Hrm).
  exists h. repeat split; [exact Hlen|exact Hhex|].
  rewrite removeDashes_app, Hrm. cbn [removeDashes]. rewrite Hc. reflexivity.
Qed.

Lemma uuid_key (u : string) :
  isUuid u = true ->
  String.length (removeDashes u) = 32%nat
  /\ forallb isHexDigit (list_ascii_of_string (removeDashes u)) = true.
Proof.
  unfold isUuid. cbn [isGrouped]. intros H.
  destruct (dropHex 8 u) as [[|c1 r1]|] eqn:E1; try discriminate H.
  apply andb_true_iff in H as [C1 H].
  destruct (dropHex 4 r1) as [[|c2 r2]|] eqn:E2; try discriminate H.
  apply andb_true_iff in H as [C2 H].
  destruct (dropHex 4 r2) as [[|c3 r3]|] eqn:E3; try discriminate H.
  apply andb_true_iff in H as [C3 H].
  destruct (dropHex 4 r3) as [[|c4 r4]|] eqn:E4; try discriminate H.
  apply andb_true_iff in H as [C4 H].
  destruct (dropHex 12 r4) as [[|c5 r5]|] eqn:E5; try discriminate H.
  destruct (group_then_dash _ _ _ _ E1 C1) as (h1 & L1 & X1 & ->).
  destruct (group_then_dash _ _ _ _ E2 C2) as (h2 & L2 & X2 & ->).
  destruct (group_then_dash _ _ _ _ E3 C3) as (h3 & L3 & X3 & ->).
  destruct (group_then_dash _ _ _ _ E4 C4) as (h4 & L4 & X4 & ->).
  destruct (dropHex_Some _ _ _ E5) as (h5 & -> & L5 & X5 & R5).
  rewrite removeDashes_app, R5. cbn [removeDashes].
  rewrite !string_length_app, !hex_string_app, L1, L2, L3, L4, L5,
    X1, X2, X3, X4, X5.
  split; reflexivity.
Qed.

Lemma trimEnd_app (s t : string) :
  trimEnd t <> EmptyString -> trimEnd (s ++ t) = (s ++ trimEnd t)%string.
Proof.
  intros Ht. induction s as [|c s IH]; [reflexivity|].
  rewrite !append_cons. cbn [trimEnd]. rewrite IH.
  destruct (s ++ trimEnd t)%string as [|c' k] eqn:E; [|reflexivity].
  exfalso. destruct s; [exact (Ht E)|discriminate E].
Qed.

Lemma trimEnd_nonempty_app (s t : string) :
  trimEnd t <> EmptyString -> (s ++ trimEnd t)%string <> EmptyString.
Proof. intros Ht E. destruct s; [exact (Ht E)|discriminate E]. Qed.

(** The line breaks around the template are trimmed, and nothing else. *)
Lemma trim_template (key : string) :
  trim (template key) = (templateHead ++ key ++ templateTail)%string.
Proof.
  assert (Htail : trimEnd (templateTail ++ newline) = templateTail)
    by (vm_compute; reflexivity).
  assert (Hne : trimEnd (templateTail ++ newline) <> EmptyString)
    by (rewrite Htail; discriminate).
  unfold trim, template.
  change (skipSpaces (newline ++ templateHead ++ key ++ templateTail ++ newline)%string)
    with (templateHead ++ key ++ templateTail ++ newline)%string.
  rewrite trimEnd_app.
  - rewrite trimEnd_app; [|exact Hne]. rewrite Htail. reflexivity.
  - rewrite trimEnd_app; [|exact Hne]. apply trimEnd_nonempty_app. exact Hne.
Qed.

(** X18.  The script never overwrites: when the production configuration
    is there, the files stay as they are and the script leaves through
    [process.exit()].  So a second run, whatever uuid it draws, keeps the
    configuration and the secret key of the first; and no run touches
    another file. *)
Theorem init_config_never_overwrites
    (creatable : string -> bool) (dirname uuid uuid' : string)
    (files : gmap string string) :
  (is_Some (files !! productionConfigPath dirname) ->
   initConfig creatable dirname uuid files = (files, true))
  /\ initConfig creatable dirname uuid' (fst (initConfig creatable dirname uuid files))
     = (fst (initConfig creatable dirname uuid files), true)
  /\ (forall path, path <> productionConfigPath dirname ->
        fst (initConfig creatable dirname uuid files) !! path = files !! path).
Proof.
  assert (Hthere : forall u (fl : gmap string string),
            is_Some (fl !! productionConfigPath dirname) ->
            initConfig creatable dirname u fl = (fl, true)).
  { intros u fl [old Hold]. unfold initConfig, writeFileSync_wx.
    rewrite Hold. reflexivity. }
  split; [apply Hthere|]. split.
  - unfold initConfig at 2 3, writeFileSync_wx.
    destruct (files !! productionConfigPath dirname) as [old|] eqn:E; cbn [fst].
    + apply Hthere. rewrite E. eauto.
    + destruct (creatable (productionConfigPath dirname)) eqn:C; cbn [fst].
      * apply Hthere. rewrite lookup_insert_eq. eauto.
      * unfold initConfig, writeFileSync_wx. rewrite E, C. reflexivity.
  - intros path Hne. unfold initConfig, writeFileSync_wx.
    destruct (files !! productionConfigPath dirname); cbn [fst]; [reflexivity|].
    destruct (creatable (productionConfigPath dirname)); cbn [fst]; [|reflexivity].
    apply lookup_insert_ne. congruence.
Qed.

(** X19.  Where there is no production configuration and the file system
    lets the script create one, the script writes it and ends normally.
    What it writes is the template without the line breaks around it, with
    the uuid without its dashes as the secret key; for a uuid in its text
    form the key is 32 hexadecimal digits.  Where the file cannot be
    created, the script leaves through [process.exit()] and no file has
    changed. *)
Theorem init_config_writes_the_key
    (creatable : string -> bool) (dirname uuid : string)
    (files : gmap string string) :
  files !! productionConfigPath dirname = None ->
  isUuid uuid = true ->
  (creatable (productionConfigPath dirname) = true ->
   exists key,
     String.length key = 32%nat
     /\ forallb isHexDigit (list_ascii_of_string key) = true
     /\ initConfig creatable dirname uuid files
        = (<[productionConfigPath dirname
             := (templateHead ++ key ++ templateTail)%string]> files, false))
  /\ (creatable (productionConfigPath dirname) = false ->
      initConfig creatable dirname uuid files = (files, true)).
Proof.
  intros Hfree Hu. destruct (uuid_key uuid Hu) as [Hlen Hhex]. split.
  - intros Hc. exists (removeDashes uuid). split; [exact Hlen|]. split; [exact Hhex|].
    unfold initConfig, writeFileSync_wx. rewrite Hfree, Hc, trim_template.
    reflexivity.
  - intros Hc. unfold initConfig, writeFileSync_wx. rewrite Hfree, Hc. reflexivity.
Qed.

Lemma init_config_writes_the_key_witness :
  let uuid := "110ec58a-a0f2-4ac4-8393-c866d813b8d1" in
  let path := productionConfigPath "/srv/scripts" in
  ((∅ : gmap string string) !! path = None
   /\ isUuid uuid = true)
  /\ (exists key,
        String.length key = 32%nat
        /\ forallb isHexDigit (list_ascii_of_string key) = true
        /\ initConfig (fun _ => true) "/srv/scripts" uuid ∅
           = (<[path := (templateHead ++ key ++ templateTail)%string]> ∅, false))
  /\ initConfig (fun _ => false) "/srv/scripts" uuid ∅ = (∅, true)
  /\ removeDashes uuid = "110ec58aa0f24ac48393c866d813b8d1".
Proof.
  intros uuid path. split; [split; reflexivity|].
  split; [|split; [|reflexivity]].
  - exact (proj1 (init_config_writes_the_key (fun _ => true) "/srv/scripts" uuid ∅
                    eq_refl eq_refl) eq_refl).
  - exact (proj2 (init_config_writes_the_key (fun _ => false) "/srv/scripts" uuid ∅
                    eq_refl eq_refl) eq_refl).
Defined.

(** ** [EntryTagViewSet] *)

Lemma attr_setProp_eq (o : object) (k : string) (v : value) :
  attr (setProp o k v) k = v.
Proof.
  induction o as [|[k' v'] rest IH]; cbn [setProp attr].
  - rewrite String.eqb_refl. reflexivity.
  - destruct (String.eqb k k') eqn:E; cbn [attr].
    + rewrite String.eqb_refl. reflexivity.
    + rewrite E. exact IH.
Qed.

Lemma attr_setProp_ne (o : object) (k k' : string) (v : value) :
  k' <> k -> attr (setProp o k v) k' = attr o k'.
Proof.
  intros Hne. induction o as [|[k0 v0] rest IH]; cbn [setProp attr].
  - apply String.eqb_neq in Hne. rewrite Hne. reflexivity.
  - destruct (String.eqb k k0) eqn:E; cbn [attr].
    + apply String.eqb_eq in E. subst k0.
      apply String.eqb_neq in Hne. rewrite Hne. reflexivity.
    + destruct (String.eqb k' k0); [reflexivity|exact IH].
Qed.

(** X20.  Whatever options the caller gives, the view set of the entry
    tags is built with create, retrieve, delete and update disabled, also
    when the caller's [disabledActions] says otherwise; every other option
    goes to [BaseViewSet] as the caller gave it. *)
Theorem entry_tag_view_set_disables_writes (options : object) :
  attr (entryTagViewSetOptions options) "disabledActions"
  = VArr [VStr "create"; VStr "retrieve"; VStr "delete"; VStr "update"]
  /\ forall k, k <> "disabledActions" ->
       attr (entryTagViewSetOptions options) k = attr options k.
Proof.
  split; [apply attr_setProp_eq|]. intros k Hk. apply attr_setProp_ne. exact Hk.
Qed.

(** ** [validateEntryFields]: lookups, and stored definitions *)

(** X21.  The ruleset of a field asks for a lookup of media exactly when
    the field is of kind MEDIA, and for a lookup of entries exactly when
    it is of kind LINK, and then with the project id that
    [validateEntryFields] was called with and no other. *)
Theorem lookups_only_for_media_and_link
    (field : object) (projectId p : value) :
  (In (Media p) (fieldConstraints field projectId)
   <-> attr field "fieldType" = VStr "MEDIA" /\ p = projectId)
  /\ (In (Entries p) (fieldConstraints field projectId)
      <-> attr field "fieldType" = VStr "LINK" /\ p = projectId).
Proof.
  unfold fieldConstraints.
  destruct (attr field "fieldType") as [| | | |s| |]; cbn [strictEq orb];
    try solve [destruct (truthy (attr field "required")); cbn [app In];
               split; split; intuition (try discriminate; try congruence)].
  repeat match goal with
         | |- context [String.eqb s ?lit] =>
             destruct (String.eqb_spec s lit) as [->|?]
         end;
    cbn [String.eqb Ascii.eqb Bool.eqb orb];
    repeat (chain_step; cbn [orb]); cbn [app In];
    split; split; intuition (try discriminate; try congruence).
Qed.

Lemma accepted_names_unique env jsonSchema0 json s (fs : list value) :
  beforeValidate env jsonSchema0 json = Return s ->
  attr json "fields" = VArr fs ->
  Nat.eqb (length (map fieldName fs)) (length (uniq (map fieldName fs))) = true.
Proof.
  unfold beforeValidate. fold fieldName. intros H Hf. rewrite Hf in H.
  destruct (negb (noErrors (validate env json entryTypeConstraints)));
    [discriminate|].
  destruct (existsb isNullish fs); [discriminate|].
  destruct (Nat.eqb _ _); [reflexivity|discriminate].
Qed.

(** X22.  For a definition that [$beforeValidate] accepts and whose field
    names are strings, [validateEntryFields] on the stored fields keeps
    one ruleset for each field that is not disabled and not named
    [__proto__], its own, under its name, and none under the name of a
    disabled field or under [__proto__]. *)
Theorem accepted_definition_compiles_per_field
    (env : Env) (jsonSchema0 : value) (json : object) (fs : list object)
    (projectId : value) (field : object) :
  beforeValidate env jsonSchema0 json = Return jsonSchema0 ->
  attr json "fields" = VArr (map VObj fs) ->
  Forall (fun f => isString (attr f "name") = true) fs ->
  In field fs ->
  entryConstraints env {| fields := fs |} projectId !! fieldKey env field
  = if enabled field && negb (String.eqb (fieldKey env field) "__proto__")
    then Some (fieldConstraints field projectId) else None.
Proof.
  intros Hacc Hfs Hnames Hin.
  pose proof (accepted_names_unique env jsonSchema0 json _ _ Hacc Hfs) as Huniq.
  assert (Hkey : forall g, In g fs -> fieldKey env g = fieldKey env field -> g = field).
  { intros g Hg Hk.
    apply list_elem_of_In, list_elem_of_lookup in Hg as [i Hi].
    apply list_elem_of_In, list_elem_of_lookup in Hin as [j Hj].
    destruct (decide (i = j)) as [->|Hij]; [congruence|].
    exfalso.
    assert (Hfail : Nat.eqb (length (map fieldName (map VObj fs)))
                      (length (uniq (map fieldName (map VObj fs)))) = false).
    { apply uniq_check_fails_iff.
      exists i, j, (attr g "name"), (attr field "name").
      rewrite !list_lookup_fmap. unfold object in *. rewrite Hi, Hj. cbn.
      repeat split; [exact Hij|].
      rewrite Forall_forall in Hnames.
      assert (Hgs : isString (attr g "name") = true).
      { apply Hnames. apply list_elem_of_lookup. eauto. }
      assert (Hfs' : isString (attr field "name") = true).
      { apply Hnames. apply list_elem_of_lookup. eauto. }
      unfold fieldKey in Hk.
      destruct (attr g "name"); try discriminate Hgs.
      destruct (attr field "name"); try discriminate Hfs'.
      cbn [toString] in Hk. subst. cbn [strictEq]. apply String.eqb_refl. }
    congruence. }
  destruct (enabled field) eqn:Hen; cbn [andb].
  - rewrite (enabled_field_ruleset env {| fields := fs |} field projectId Hin Hen).
    + unfold isProtoKey. destruct (String.eqb _ _); reflexivity.
    + intros g Hg _ Hk. apply Hkey; assumption.
  - unfold entryConstraints. apply buildConstraints_lookup_None.
    + apply lookup_empty.
    + intros g Hg Heg Hk. apply (Hkey g Hg) in Hk. congruence.
Qed.

(** Three fields, the second disabled, and then a field named [__proto__]
    with its bounds in the wrong order: the definition is accepted, and
    the entry type validates records against "title" and "body" alone. *)
Lemma accepted_definition_compiles_per_field_witness :
  let fs := [titleField; hiddenField; bodyField; protoField] in
  let json := definitionOf "Post" fs in
  (beforeValidate stubEnv jsonSchema json = Return jsonSchema
   /\ attr json "fields" = VArr (map VObj fs)
   /\ Forall (fun f => isString (attr f "name") = true) fs
   /\ In bodyField fs)
  /\ entryConstraints stubEnv {| fields := fs |} (num 1) !! fieldKey stubEnv bodyField
     = Some (fieldConstraints bodyField (num 1))
  /\ entryConstraints stubEnv {| fields := fs |} (num 1) !! "hidden" = None
  /\ entryConstraints stubEnv {| fields := fs |} (num 1) !! "__proto__" = None.
Proof.
  intros fs json.
  assert (Hacc : beforeValidate stubEnv jsonSchema json = Return jsonSchema)
    by (vm_compute; reflexivity).
  assert (Hnames : Forall (fun f => isString (attr f "name") = true) fs)
    by (repeat (apply List.Forall_cons; [reflexivity|]); apply List.Forall_nil).
  assert (Hin : In bodyField fs) by (right; right; left; reflexivity).
  split; [repeat split; first [exact Hacc | exact Hnames | exact Hin | reflexivity]|].
  split; [|split; vm_compute; reflexivity].
  exact (accepted_definition_compiles_per_field stubEnv jsonSchema json fs (num 1)
           bodyField Hacc eq_refl Hnames Hin).
Defined.
